(** * TrendSpotter (src/app.py): the analytics and narrative pipeline

    A shallow embedding of [DesktopInsightApp]: [find_working_model],
    [get_api_key], [load_data], [analyze], [generate_report_text],
    [save_pdf] and the main program, together with the part of pandas they
    rely on, followed by the properties of the specification stated over
    it.

    Modelling conventions.
    - A number of the analysis is an exact rational extended with the IEEE
      special values (+inf, -inf, NaN): the value a float64 computation
      would have without rounding.  What is stated over these numbers is
      about signs, zero divisors, undefined values and the shape of the
      formulas; where rounding decides a property, the cells are binary64
      values and the machine's own addition is used (module [F64]).
    - A [pd.Timestamp] is a calendar date with a time of day.
    - A data frame is the list of its rows, in row order.  A blank cell of
      a text column is [None] (pandas reads it as NaN).
    - A Python [dict] is an association list in insertion order.
    - The reordering numpy's sort applies to the values of a series is a
      parameter: it sorts, and that is all that is known of it (the
      default quicksort is not stable).
    - The reasoning service is an oracle with a state of its own; a call
      that raises, for whatever reason, answers [None].
    - A function that raises returns [None]: nothing in the program
      catches what [analyze] or [save_pdf] raise, so the object they leave
      half updated is never used again. *)

From Stdlib Require Import ZArith QArith Qcanon List String Ascii Bool Lia.
From Stdlib Require Import Permutation Sorted DecimalString Lqa PrimFloat.
Import ListNotations.

Set Implicit Arguments.

Local Open Scope string_scope.
Local Open Scope list_scope.

(* ================================================================== *)
(** * Part I. The embedding *)
(* ================================================================== *)

(** ** Numbers

    The numbers of the analysis, as values: what a float64 computation
    yields when no operation rounds or overflows.  Zero has no sign.  The
    properties stated over them are those that do not turn on rounding:
    which value is undefined or infinite, the sign of a result, which of
    two values is greater, and the formula a result is computed by. *)

Module Num.

Inductive num : Type :=
| Fin (q : Qc)
| PInf
| NInf
| NaN.

Definition of_Z (z : Z) : num := Fin (Q2Qc (inject_Z z)).

Definition zero : num := of_Z 0.
Definition one : num := of_Z 1.
Definition hundred : num := of_Z 100.

Definition isna (x : num) : bool :=
  match x with NaN => true | _ => false end.

(** Sign of a finite value: [Lt] negative, [Eq] zero, [Gt] positive. *)
Definition sgn (q : Qc) : comparison := Qccompare q (Q2Qc 0).

Definition opp (x : num) : num :=
  match x with
  | Fin q => Fin (Qcopp q)
  | PInf => NInf
  | NInf => PInf
  | NaN => NaN
  end.

Definition add (x y : num) : num :=
  match x, y with
  | NaN, _ | _, NaN => NaN
  | Fin a, Fin b => Fin (Qcplus a b)
  | PInf, NInf | NInf, PInf => NaN
  | PInf, _ | _, PInf => PInf
  | NInf, _ | _, NInf => NInf
  end.

Definition sub (x y : num) : num := add x (opp y).

Definition mul (x y : num) : num :=
  match x, y with
  | NaN, _ | _, NaN => NaN
  | Fin a, Fin b => Fin (Qcmult a b)
  | Fin a, PInf | PInf, Fin a =>
      match sgn a with Gt => PInf | Lt => NInf | Eq => NaN end
  | Fin a, NInf | NInf, Fin a =>
      match sgn a with Gt => NInf | Lt => PInf | Eq => NaN end
  | PInf, PInf | NInf, NInf => PInf
  | PInf, NInf | NInf, PInf => NInf
  end.

(** numpy division: a zero divisor does not raise, it yields an infinity
    (or NaN for 0/0). *)
Definition div (x y : num) : num :=
  match x, y with
  | NaN, _ | _, NaN => NaN
  | Fin a, Fin b =>
      match sgn b with
      | Eq => match sgn a with Gt => PInf | Lt => NInf | Eq => NaN end
      | _ => Fin (Qcdiv a b)
      end
  | Fin _, PInf | Fin _, NInf => zero
  | PInf, Fin b => match sgn b with Lt => NInf | _ => PInf end
  | NInf, Fin b => match sgn b with Lt => PInf | _ => NInf end
  | _, _ => NaN
  end.

Definition abs (x : num) : num :=
  match x with
  | Fin q => match sgn q with Lt => Fin (Qcopp q) | _ => Fin q end
  | PInf | NInf => PInf
  | NaN => NaN
  end.

(** Comparison; undefined as soon as one side is NaN. *)
Definition cmp (x y : num) : option comparison :=
  match x, y with
  | NaN, _ | _, NaN => None
  | Fin a, Fin b => Some (Qccompare a b)
  | PInf, PInf | NInf, NInf => Some Eq
  | NInf, _ | _, PInf => Some Lt
  | PInf, _ | _, NInf => Some Gt
  end.

Definition gtb (x y : num) : bool :=
  match cmp x y with Some Gt => true | _ => false end.

Definition geb (x y : num) : bool :=
  match cmp x y with Some Gt | Some Eq => true | _ => false end.

Definition leb (x y : num) : bool :=
  match cmp x y with Some Lt | Some Eq => true | _ => false end.

Definition eqb (x y : num) : bool :=
  match cmp x y with Some Eq => true | _ => false end.

(** [Series.sum()]: NaN entries are skipped, the empty sum is 0. *)
Definition dropna (xs : list num) : list num :=
  filter (fun x => negb (isna x)) xs.

Definition sum (xs : list num) : num := fold_left add (dropna xs) zero.

(** [Series.mean()]: NaN entries are skipped; NaN when nothing is left. *)
Definition mean (xs : list num) : num :=
  match dropna xs with
  | [] => NaN
  | ys => div (fold_left add ys zero) (of_Z (Z.of_nat (List.length ys)))
  end.

End Num.

(** ** binary64 itself *)

Module F64.

(** [x != x] *)
Definition isna (x : float) : bool := negb (PrimFloat.eqb x x).

(** [Series.sum()] on a float64 column of fewer than eight cells: the NaN
    entries are skipped and the others are added to 0.0 one after the
    other, in row order, each addition rounded to binary64.  (numpy adds
    longer columns in blocks of eight; they are not needed here.) *)
Definition sum (cells : list float) : float :=
  fold_left PrimFloat.add (filter (fun x => negb (isna x)) cells) 0%float.

End F64.

(** ** Timestamps *)

Module Cal.

Record Timestamp : Type := mkTimestamp {
  year : Z;
  month : Z;
  day : Z;
  tod : Z  (* time of day, in nanoseconds since midnight *)
}.

Definition is_leap (y : Z) : bool :=
  ((y mod 4 =? 0) && negb (y mod 100 =? 0) || (y mod 400 =? 0))%Z.

Definition days_in_month (y m : Z) : Z :=
  if (m =? 2)%Z then (if is_leap y then 29 else 28)%Z
  else if ((m =? 4) || (m =? 6) || (m =? 9) || (m =? 11))%Z then 30%Z
  else 31%Z.

Definition ns_per_day : Z := 86400000000000.

Definition valid (t : Timestamp) : Prop :=
  (1 <= month t <= 12 /\ 1 <= day t <= days_in_month (year t) (month t)
   /\ 0 <= tod t < ns_per_day)%Z.

(** [t.replace(day=d)] *)
Definition replace_day (t : Timestamp) (d : Z) : Timestamp :=
  {| year := year t; month := month t; day := d; tod := tod t |}.

(** [t - pd.Timedelta(days=1)] *)
Definition sub_one_day (t : Timestamp) : Timestamp :=
  if (1 <? day t)%Z then replace_day t (day t - 1)
  else if (1 <? month t)%Z then
    {| year := year t; month := month t - 1;
       day := days_in_month (year t) (month t - 1); tod := tod t |}
  else
    {| year := year t - 1; month := 12; day := 31; tod := tod t |}.

(** [t + pd.Timedelta(days=1)], used to state that [sub_one_day] steps
    back by exactly one day. *)
Definition add_one_day (t : Timestamp) : Timestamp :=
  if (day t <? days_in_month (year t) (month t))%Z then replace_day t (day t + 1)
  else if (month t <? 12)%Z then
    {| year := year t; month := month t + 1; day := 1; tod := tod t |}
  else
    {| year := year t + 1; month := 1; day := 1; tod := tod t |}.

Definition compare (a b : Timestamp) : comparison :=
  match (year a ?= year b)%Z with
  | Eq => match (month a ?= month b)%Z with
          | Eq => match (day a ?= day b)%Z with
                  | Eq => (tod a ?= tod b)%Z
                  | c => c
                  end
          | c => c
          end
  | c => c
  end.

Definition leb (a b : Timestamp) : bool :=
  match compare a b with Gt => false | _ => true end.

Definition le (a b : Timestamp) : Prop := leb a b = true.

Definition same_day (a b : Timestamp) : bool :=
  ((year a =? year b) && (month a =? month b) && (day a =? day b))%Z.

Definition month_name (m : Z) : string :=
  match m with
  | 1%Z => "January" | 2%Z => "February" | 3%Z => "March" | 4%Z => "April"
  | 5%Z => "May" | 6%Z => "June" | 7%Z => "July" | 8%Z => "August"
  | 9%Z => "September" | 10%Z => "October" | 11%Z => "November"
  | _ => "December"
  end.

(** [t.strftime("%B %Y")] *)
Definition strftime_B_Y (t : Timestamp) : string :=
  (month_name (month t) ++ " " ++ NilZero.string_of_int (Z.to_int (year t)))%string.

End Cal.

(** ** Strings *)

Module Str.

(** [s.startswith(p)] *)
Fixpoint starts_with (p s : string) : bool :=
  match p, s with
  | EmptyString, _ => true
  | String a p', String b s' => Ascii.eqb a b && starts_with p' s'
  | String _ _, EmptyString => false
  end.

(** [needle in hay] *)
Fixpoint contains (needle hay : string) : bool :=
  starts_with needle hay ||
  match hay with
  | EmptyString => false
  | String _ hay' => contains needle hay'
  end.

(** [s.replace(old, new)] for a non-empty [old]: the occurrences are
    replaced from left to right and do not overlap; [skip] counts the
    characters of a matched occurrence still to be dropped. *)
Fixpoint replace_from (old new : string) (skip : nat) (s : string) : string :=
  match s with
  | EmptyString => EmptyString
  | String c s' =>
      match skip with
      | S k => replace_from old new k s'
      | O =>
          if starts_with old s
          then new ++ replace_from old new (String.length old - 1) s'
          else String c (replace_from old new 0 s')
      end
  end.

Definition replace (old new s : string) : string := replace_from old new 0 s.

Definition nl : string := String "010"%char EmptyString.
Definition dquote : string := String "034"%char EmptyString.

End Str.

(** ** The part of pandas the program uses *)

Module Pd.

Import Num Cal.

(** One row of the ingested data set, after [load_data] has cleaned it:
    the cost is numeric, a non-numeric ROI has become NaN, the date is a
    timestamp.  Company and channel are text columns; a blank cell of
    either is [None] (NaN in pandas), a blank numeric cell is NaN.  Every
    row carries a date: a frame with a blank date cell (NaT) is outside
    the model.  ([max()] skips such a row and it fails every comparison
    with the bounds of a window, so it is in no selection; it could only
    change the order in which [unique()] meets the companies.) *)
Record Row : Type := mkRow {
  Date : Timestamp;
  Company : option string;
  Channel_Used : option string;
  Acquisition_Cost : num;
  ROI : num;
  Conversion_Rate : num
}.

Definition DataFrame : Type := list Row.

(** [d.empty] *)
Definition empty (d : DataFrame) : bool :=
  match d with [] => true | _ => false end.

(** [df['Date'].max()]; [None] stands for NaT (no date at all). *)
Definition max_date (d : DataFrame) : option Timestamp :=
  match d with
  | [] => None
  | r :: t =>
      Some (fold_left (fun m x => if Cal.leb m (Date x) then Date x else m) t (Date r))
  end.

Definition min_date (d : DataFrame) : option Timestamp :=
  match d with
  | [] => None
  | r :: t =>
      Some (fold_left (fun m x => if Cal.leb (Date x) m then Date x else m) t (Date r))
  end.

(** [Series.unique()]: the distinct values in order of first appearance. *)
Fixpoint unique (l : list string) : list string :=
  match l with
  | [] => []
  | x :: t => x :: filter (fun y => negb (String.eqb x y)) (unique t)
  end.

(** [Series.dropna()] on a text column: the cells that are not blank. *)
Fixpoint present (cells : list (option string)) : list string :=
  match cells with
  | [] => []
  | Some x :: t => x :: present t
  | None :: t => present t
  end.

(** [cell == value]: false on a blank cell. *)
Definition is_name (value : string) (cell : option string) : bool :=
  match cell with
  | Some x => String.eqb x value
  | None => false
  end.

(** [df[df['Company'] == company]] *)
Definition of_company (company : string) (d : DataFrame) : DataFrame :=
  filter (fun r => is_name company (Company r)) d.

(** [d[(d['Date'] >= lo) & (d['Date'] <= hi)]] *)
Definition between (lo hi : Timestamp) (d : DataFrame) : DataFrame :=
  filter (fun r => Cal.leb lo (Date r) && Cal.leb (Date r) hi) d.

(** An ascending insertion sort.  [groupby] uses it on the distinct
    channel names, where every sorting algorithm gives the same result; it
    also serves as a sample of the reordering behind [sort_values]. *)
Section Sorting.
Variable A : Type.
Variable le : A -> A -> bool.

Fixpoint insert (x : A) (l : list A) : list A :=
  match l with
  | [] => [x]
  | y :: t => if le x y then x :: l else y :: insert x t
  end.

Fixpoint isort (l : list A) : list A :=
  match l with
  | [] => []
  | x :: t => insert x (isort t)
  end.

End Sorting.

(** A [Series] indexed by strings: the (index, value) pairs in order. *)
Definition Series : Type := list (string * num).

(** [d.groupby('Channel_Used')['ROI'].mean()]: one entry per channel, the
    channels in sorted order ([sort=True] is the default); the rows with a
    blank channel belong to no group ([dropna=True] is the default). *)
Definition group_keys (d : DataFrame) : list string :=
  isort String.leb (unique (present (map Channel_Used d))).

Definition group (k : string) (d : DataFrame) : DataFrame :=
  filter (fun r => is_name k (Channel_Used r)) d.

Definition groupby_channel_mean_ROI (d : DataFrame) : Series :=
  map (fun k => (k, mean (map ROI (group k d)))) (group_keys d).

(** [s.sort_values(ascending=False)], as pandas' [nargsort] does it: the
    NaN entries are set aside and appended last in their original order;
    the others are reversed, reordered by numpy's [argsort] into ascending
    order of their values, and reversed back.  [kernel] is that
    reordering. *)
Section SortValues.

Variable kernel : Series -> Series.

Definition sort_values_desc (s : Series) : Series :=
  let good := filter (fun kv => negb (isna (snd kv))) s in
  let bad := filter (fun kv => isna (snd kv)) s in
  rev (kernel (rev good)) ++ bad.

End SortValues.

(** [curr_df.set_index('Date').resample('D')['ROI'].mean()]: one bin per
    calendar day from the first to the last day present, each with the mean
    ROI of its rows (NaN for a day without rows).  The frame it is applied
    to lies within one calendar month, so the bins are the days of that
    month between the two ends. *)
Definition on_day (y m dd : Z) (d : DataFrame) : DataFrame :=
  filter (fun r => ((year (Date r) =? y) && (month (Date r) =? m)
                    && (day (Date r) =? dd))%Z) d.

Definition resample_D_mean_ROI (d : DataFrame) : list (Timestamp * num) :=
  match min_date d, max_date d with
  | Some lo, Some hi =>
      map (fun i =>
             let dd := (day lo + Z.of_nat i)%Z in
             ({| year := year lo; month := month lo; day := dd; tod := 0 |},
              mean (map ROI (on_day (year lo) (month lo) dd d))))
          (seq 0 (Z.to_nat (day hi - day lo + 1)))
  | _, _ => []
  end.

End Pd.

(** ** A Python dict with string keys *)

Module Dict.

Section Dict.
Variable V : Type.

Definition dict : Type := list (string * V).

(** [d[k]], [None] for a missing key *)
Fixpoint get (k : string) (d : dict) : option V :=
  match d with
  | [] => None
  | (k', v) :: t => if String.eqb k' k then Some v else get k t
  end.

(** [d[k] = v]: an existing key keeps its place, a new key goes last. *)
Fixpoint set (k : string) (v : V) (d : dict) : dict :=
  match d with
  | [] => [(k, v)]
  | (k', v') :: t =>
      if String.eqb k' k then (k', v) :: t else (k', v') :: set k v t
  end.

Definition keys (d : dict) : list string := map fst d.

End Dict.

End Dict.

(** ** DesktopInsightApp *)

Module App.

Import Num Cal Pd.

Record MetricSet : Type := mkMetricSet {
  spend : num;
  roi : num;
  conv : num
}.

Record DeltaSet : Type := mkDeltaSet {
  spend_pct : num;
  roi_pct : num;
  conv_pct : num
}.

(** A value of [self.client_reports]. *)
Record ClientReport : Type := mkClientReport {
  current : MetricSet;
  prev : MetricSet;
  delta : DeltaSet;
  best_channel : string;
  best_channel_roi : num;
  trend_data : list (Timestamp * num);
  narrative : string
}.

(** The attributes of the application object; [model] is the handle built
    by [get_api_key], identified by the name it was built from. *)
Record State : Type := mkState {
  df : option DataFrame;
  client_reports : Dict.dict ClientReport;
  api_key : option string;
  model : option string;
  model_name : string;
  reporting_period : string
}.

(** [__init__] *)
Definition init : State :=
  {| df := None; client_reports := []; api_key := None; model := None;
     model_name := "Unknown"; reporting_period := "Unknown" |}.

(** *** Capability discovery *)

(** An entry of [genai.list_models()]. *)
Record ModelInfo : Type := mkModelInfo {
  name : string;
  supported_generation_methods : list string
}.

Definition mem (s : string) (l : list string) : bool :=
  existsb (String.eqb s) l.

Definition priorities : list string :=
  ["models/gemini-1.5-pro"; "models/gemini-1.5-flash"; "models/gemini-pro"].

Definition available_models (listing : list ModelInfo) : list string :=
  map name
      (filter (fun m => mem "generateContent" (supported_generation_methods m))
              listing).

(** [find_working_model]; the listing is [None] when [genai.list_models()]
    raises, which the bare [except] turns into [None]. *)
Definition find_working_model (listing : option (list ModelInfo)) : option string :=
  match listing with
  | None => None
  | Some ms =>
      let available := available_models ms in
      match find (fun p => mem p available) priorities with
      | Some p => Some p
      | None => find (fun m => Str.contains "gemini" m) available
      end
  end.

(** Truth value of [self.api_key]: [None] and the empty string are false. *)
Definition truthy (k : option string) : bool :=
  match k with
  | Some (String _ _) => true
  | _ => false
  end.

(** [get_api_key]: [entered] is what the dialog returned. *)
Definition get_api_key (entered : option string)
    (listing : option (list ModelInfo)) (st : State) : State * bool :=
  let st1 :=
    {| df := df st; client_reports := client_reports st; api_key := entered;
       model := model st; model_name := model_name st;
       reporting_period := reporting_period st |} in
  if truthy entered then
    match find_working_model listing with
    | Some found_name =>
        ({| df := df st1; client_reports := client_reports st1;
            api_key := api_key st1; model := Some found_name;
            model_name := found_name;
            reporting_period := reporting_period st1 |}, true)
    | None => (st1, false)
    end
  else (st1, false).

(** [load_data], on a file already parsed and cleaned. *)
Definition load_data (rows : DataFrame) (st : State) : State :=
  {| df := Some rows; client_reports := client_reports st;
     api_key := api_key st; model := model st; model_name := model_name st;
     reporting_period := reporting_period st |}.

(** *** The analysis *)

(** Lines 122-125 of [analyze]: the two reporting windows. *)
Record Periods : Type := mkPeriods {
  current_month_start : Timestamp;
  last_date : Timestamp;
  prev_month_start : Timestamp;
  prev_month_end : Timestamp
}.

Definition periods (last : Timestamp) : Periods :=
  let cms := replace_day last 1 in
  let pme := sub_one_day cms in
  let pms := replace_day pme 1 in
  {| current_month_start := cms; last_date := last;
     prev_month_start := pms; prev_month_end := pme |}.

Definition get_metrics (d : DataFrame) : MetricSet :=
  {| spend := sum (map Acquisition_Cost d);
     roi := mean (map ROI d);
     conv := mul (mean (map Conversion_Rate d)) hundred |}.

(** [{'spend':1, 'roi':1, 'conv':1}] *)
Definition sentinel : MetricSet := {| spend := one; roi := one; conv := one |}.

(** [((c - p) / p) * 100] *)
Definition pct (c p : num) : num := mul (div (sub c p) p) hundred.

Definition get_delta (curr prv : MetricSet) : DeltaSet :=
  {| spend_pct := pct (spend curr) (spend prv);
     roi_pct := pct (roi curr) (roi prv);
     conv_pct := pct (conv curr) (conv prv) |}.

Definition curr_df (p : Periods) (company : string) (d : DataFrame) : DataFrame :=
  between (current_month_start p) (last_date p) (of_company company d).

Definition prev_df (p : Periods) (company : string) (d : DataFrame) : DataFrame :=
  between (prev_month_start p) (prev_month_end p) (of_company company d).

(** Lines 149-158: the two MetricSets of a client and the delta between
    them, from its current and its previous selection. *)
Definition figures (cd pd : DataFrame) : MetricSet * MetricSet * DeltaSet :=
  let curr := get_metrics cd in
  let prv := if negb (empty pd) then get_metrics pd else sentinel in
  (curr, prv, get_delta curr prv).

(** [df['Company'].unique()], without the NaN entry a blank cell adds to
    it: [df['Company'] == nan] holds of no row, so that iteration of the
    loop selects nothing and ends at line 139. *)
Definition companies (d : DataFrame) : list string :=
  unique (present (map Company d)).

Section Analyze.

(** The reordering behind [sort_values] (see [Pd.sort_values_desc]). *)
Variable kernel : Series -> Series.

(** Lines 161-167: the winning channel; [None] when [index[0]] raises
    IndexError, which it does on a series without entry: every row of the
    selection has a blank channel. *)
Definition best_chan (cd : DataFrame) : option (string * num) :=
  if negb (empty cd) then
    hd_error (sort_values_desc kernel (groupby_channel_mean_ROI cd))
  else Some ("N/A", zero).

(** One iteration of the loop over the companies; [None] when it raises. *)
Definition analyze_company (d : DataFrame) (p : Periods)
    (reports : Dict.dict ClientReport) (company : string)
  : option (Dict.dict ClientReport) :=
  let cd := curr_df p company d in
  let pd := prev_df p company d in
  if empty cd then Some reports
  else
    let '(curr, prv, dl) := figures cd pd in
    match best_chan cd with
    | None => None
    | Some (bc, bcr) =>
        Some (Dict.set company
                {| current := curr; prev := prv; delta := dl;
                   best_channel := bc; best_channel_roi := bcr;
                   trend_data := resample_D_mean_ROI cd;
                   narrative := "Pending..." |}
                reports)
    end.

Fixpoint analyze_loop (d : DataFrame) (p : Periods)
    (reports : Dict.dict ClientReport) (companies : list string)
  : option (Dict.dict ClientReport) :=
  match companies with
  | [] => Some reports
  | company :: rest =>
      match analyze_company d p reports company with
      | Some reports' => analyze_loop d p reports' rest
      | None => None
      end
  end.

(** [analyze]; [None] when it raises: no data frame; no date at all, in
    which case the maximum is NaT and [strftime] fails; or a client whose
    current rows all have a blank channel. *)
Definition analyze (st : State) : option State :=
  match df st with
  | None => None
  | Some d =>
      match max_date d with
      | None => None
      | Some last =>
          let p := periods last in
          let period := strftime_B_Y (current_month_start p) in
          match analyze_loop d p (client_reports st) (companies d) with
          | None => None
          | Some reports =>
              Some {| df := df st; client_reports := reports;
                      api_key := api_key st; model := model st;
                      model_name := model_name st;
                      reporting_period := period |}
          end
      end
  end.

End Analyze.

(** *** The narrative *)

Definition set_narrative (text : string) (data : ClientReport) : ClientReport :=
  {| current := current data; prev := prev data; delta := delta data;
     best_channel := best_channel data;
     best_channel_roi := best_channel_roi data;
     trend_data := trend_data data; narrative := text |}.

Definition ai_unavailable : string := "AI Unavailable.".
Definition demo_mode : string := "Demo Mode: AI analysis skipped.".

Section Narrative.

(** Python's number formatting: [{:,.0f}], [{:.1f}] and [{:.2f}]. *)
Variable fmt_comma_0f : num -> string.
Variable fmt_1f : num -> string.
Variable fmt_2f : num -> string.

(** The reasoning service: [generate_content m prompt w] is the outcome of
    [GenerativeModel(m).generate_content(prompt)] followed by [.text] in
    service state [w]: the text, or [None] when either raises, and the
    state of the service afterwards. *)
Variable svc : Type.
Variable generate_content : string -> string -> svc -> option string * svc.

Definition build_prompt (period company : string) (data : ClientReport) : string :=
  let roi_arrow := if gtb (roi_pct (delta data)) zero then "UP" else "DOWN" in
  let spend_arrow :=
    if gtb (spend_pct (delta data)) zero then "INCREASED" else "DECREASED" in
  let ind := "            " in
  (Str.nl
   ++ ind ++ "ACT AS: A Senior Account Manager at a premium Ad Agency." ++ Str.nl
   ++ ind ++ "CLIENT: " ++ Str.dquote ++ company ++ Str.dquote ++ Str.nl
   ++ ind ++ "PERIOD: " ++ period ++ Str.nl
   ++ ind ++ Str.nl
   ++ ind ++ "### PERFORMANCE DATA (STRICT TRUTH):" ++ Str.nl
   ++ ind ++ "- Spend: $" ++ fmt_comma_0f (spend (current data))
          ++ " (" ++ spend_arrow ++ " "
          ++ fmt_1f (abs (spend_pct (delta data))) ++ "%)." ++ Str.nl
   ++ ind ++ "- ROI: " ++ fmt_2f (roi (current data))
          ++ "x (Trending " ++ roi_arrow ++ " "
          ++ fmt_1f (abs (roi_pct (delta data))) ++ "%)." ++ Str.nl
   ++ ind ++ "- Top Channel: " ++ best_channel data
          ++ " (" ++ fmt_2f (best_channel_roi data) ++ "x ROI)." ++ Str.nl
   ++ Str.nl
   ++ ind ++ "### YOUR TASK:" ++ Str.nl
   ++ ind ++ "Write a short, professional Executive Recap (1 paragraph)." ++ Str.nl
   ++ ind ++ "1. HIGHLIGHT: The ROI trend." ++ Str.nl
   ++ ind ++ "2. EXPLAIN: Connect the result to the Spend or Channel performance." ++ Str.nl
   ++ ind ++ "3. OPTIMIZE: Suggest doubling down on the Top Channel." ++ Str.nl
   ++ ind)%string.

(** Cleaning Markdown: [text.replace('**', '').replace('##', '')] *)
Definition clean (text : string) : string :=
  Str.replace "##" "" (Str.replace "**" "" text).

(** The body of the loop of [generate_report_text] for one item. *)
Definition narrate (st : State) (company : string) (data : ClientReport)
    (w : svc) : ClientReport * svc :=
  let prompt := build_prompt (reporting_period st) company data in
  match truthy (api_key st), model st with
  | true, Some m =>
      match generate_content m prompt w with
      | (Some text, w') => (set_narrative (clean text) data, w')
      | (None, w') => (set_narrative ai_unavailable data, w')
      end
  | _, _ => (set_narrative demo_mode data, w)
  end.

Fixpoint narrate_items (st : State) (items : Dict.dict ClientReport) (w : svc)
  : Dict.dict ClientReport * svc :=
  match items with
  | [] => ([], w)
  | (company, data) :: rest =>
      let (data', w1) := narrate st company data w in
      let (rest', w2) := narrate_items st rest w1 in
      ((company, data') :: rest', w2)
  end.

(** [generate_report_text] *)
Definition generate_report_text (st : State) (w : svc) : State * svc :=
  let (reports, w') := narrate_items st (client_reports st) w in
  ({| df := df st; client_reports := reports; api_key := api_key st;
      model := model st; model_name := model_name st;
      reporting_period := reporting_period st |}, w').

End Narrative.

End App.

(** ** Vocabulary of the statements *)

Module Spec.

Import Num Cal Pd App.

(** What is known of the reordering behind [sort_values]: on values none
    of which is NaN it returns the same entries, in ascending order of
    their values. *)
Definition sorts (kernel : Series -> Series) : Prop :=
  forall s,
    Forall (fun kv => isna (snd kv) = false) s ->
    Permutation (kernel s) s
    /\ StronglySorted (fun a b => Num.leb (snd a) (snd b) = true) (kernel s).

(** Some row of a selection has a channel. *)
Definition has_channel (cd : DataFrame) : bool :=
  existsb (fun r => match Channel_Used r with Some _ => true | None => false end)
          cd.

(** Every client with rows in the current window has a channel in one of
    them. *)
Definition channels_known (p : Periods) (d : DataFrame) : bool :=
  forallb (fun c => empty (curr_df p c d) || has_channel (curr_df p c d))
          (companies d).

(** The report [analyze] stores for a company that has rows in the
    current window, one of them with a channel. *)
Definition report_for (kernel : Series -> Series) (d : DataFrame) (p : Periods)
    (company : string) : ClientReport :=
  let cd := curr_df p company d in
  let pd := prev_df p company d in
  let curr := get_metrics cd in
  let prv := if empty pd then sentinel else get_metrics pd in
  let best :=
    match best_chan kernel cd with Some b => b | None => ("N/A", zero) end in
  {| current := curr; prev := prv; delta := get_delta curr prv;
     best_channel := fst best; best_channel_roi := snd best;
     trend_data := resample_D_mean_ROI cd; narrative := "Pending..." |}.


(** A row belongs to a company and to a window, both ends included. *)
Definition selected (company : string) (lo hi : Timestamp) (r : Row) : Prop :=
  Company r = Some company /\ Cal.le lo (Date r) /\ Cal.le (Date r) hi.

(** The last element of a list. *)
Section Pick.
Variable A : Type.

Fixpoint last_opt (l : list A) : option A :=
  match l with
  | [] => None
  | x :: t => match last_opt t with None => Some x | Some m => Some m end
  end.

End Pick.


(** Two reports agree on everything but the narrative. *)
Definition same_figures (a b : ClientReport) : Prop :=
  current a = current b /\ prev a = prev b /\ delta a = delta b
  /\ best_channel a = best_channel b
  /\ best_channel_roi a = best_channel_roi b
  /\ trend_data a = trend_data b.

End Spec.

(** ** Sample data *)

Module Sample.

Import Num Cal Pd App.

Definition q (n : Z) (d : positive) : num := Fin (Q2Qc (n # d)).

Definition midnight (y m d : Z) : Timestamp :=
  {| year := y; month := m; day := d; tod := 0 |}.

(** The scenario of the specification: two rows for Acme on the first of
    the month, none in the month before. *)
Definition acme : DataFrame :=
  [ {| Date := midnight 2024 3 1; Company := Some "Acme";
       Channel_Used := Some "Search";
       Acquisition_Cost := q 100 1; ROI := q 3 1; Conversion_Rate := q 1 10 |};
    {| Date := midnight 2024 3 1; Company := Some "Acme";
       Channel_Used := Some "Social";
       Acquisition_Cost := q 50 1; ROI := q 3 2; Conversion_Rate := q 1 5 |} ].

(** A client whose previous month cost nothing, and one that was only
    active in the previous month. *)
Definition free_month : DataFrame :=
  [ {| Date := midnight 2024 3 10; Company := Some "Acme";
       Channel_Used := Some "Search";
       Acquisition_Cost := q 200 1; ROI := q 2 1; Conversion_Rate := q 1 10 |};
    {| Date := midnight 2024 2 10; Company := Some "Acme";
       Channel_Used := Some "Search";
       Acquisition_Cost := q 0 1; ROI := q 2 1; Conversion_Rate := q 1 10 |};
    {| Date := midnight 2024 2 12; Company := Some "Gone";
       Channel_Used := Some "Email";
       Acquisition_Cost := q 10 1; ROI := q 1 1; Conversion_Rate := q 1 10 |} ].


(** One channel without a numeric ROI next to one with. *)
Definition half_roi : DataFrame :=
  [ {| Date := midnight 2024 3 2; Company := Some "Acme";
       Channel_Used := Some "Search";
       Acquisition_Cost := q 10 1; ROI := NaN; Conversion_Rate := q 1 10 |};
    {| Date := midnight 2024 3 3; Company := Some "Acme";
       Channel_Used := Some "Social";
       Acquisition_Cost := q 10 1; ROI := q 2 1; Conversion_Rate := q 1 10 |} ].

(** A data set whose last date is in January. *)
Definition january : DataFrame :=
  [ {| Date := midnight 2024 1 15; Company := Some "Acme";
       Channel_Used := Some "Search";
       Acquisition_Cost := q 10 1; ROI := q 2 1; Conversion_Rate := q 1 10 |};
    {| Date := midnight 2023 12 31; Company := Some "Acme";
       Channel_Used := Some "Search";
       Acquisition_Cost := q 20 1; ROI := q 1 1; Conversion_Rate := q 1 10 |} ].

(** A client whose only row of the month has a blank channel cell. *)
Definition blank_channel : DataFrame :=
  [ {| Date := midnight 2024 3 5; Company := Some "Acme";
       Channel_Used := None;
       Acquisition_Cost := q 10 1; ROI := q 2 1; Conversion_Rate := q 1 10 |} ].

(** A sorting routine to run the analysis with. *)
Definition sort_kernel : Series -> Series :=
  isort (fun a b => Num.leb (snd a) (snd b)).



(** A reasoning service that has run out of quota at every other call,
    its state being the number of calls so far; and a stand-in for the
    number formats. *)
Definition flaky (m prompt : string) (calls : nat) : option string * nat :=
  (if Nat.even calls then None else Some "## A **good** month.", S calls).

Definition no_format (x : num) : string := "?".

Definition pending (c : MetricSet) : ClientReport :=
  {| current := c; prev := sentinel; delta := get_delta c sentinel;
     best_channel := "Search"; best_channel_roi := q 3 1;
     trend_data := []; narrative := "Pending..." |}.

(** An application with a key, a model and two reports awaiting their
    narrative. *)
Definition two_clients : State :=
  {| df := Some acme;
     client_reports := [("Acme", pending (get_metrics acme));
                        ("Beta", pending sentinel)];
     api_key := Some "key"; model := Some "models/gemini-pro";
     model_name := "models/gemini-pro"; reporting_period := "March 2024" |}.

End Sample.

(** ** Ingestion: the cleaning of currency cells *)

Module Ingest.

(** [re.sub('[' + cls + ']', repl, s)] for a class of plain characters. *)
Fixpoint sub_class (cls : list ascii) (repl s : string) : string :=
  match s with
  | EmptyString => EmptyString
  | String c s' =>
      if existsb (Ascii.eqb c) cls then (repl ++ sub_class cls repl s')%string
      else String c (sub_class cls repl s')
  end.

(** What [load_data] does to a cell of [Acquisition_Cost] held as text:
    [replace(r'[$,]', '', regex=True)], before the conversion to float. *)
Definition strip_currency (cell : string) : string :=
  sub_class ["$"%char; ","%char] "" cell.

End Ingest.

(** ** Rendering: what [save_pdf] hands to the document builder *)

Module Render.

Import Num Cal Pd App.

Inductive Style : Type := title_style | sub_style | h2_style | body_style.

Inductive Color : Type := green | red.

(** The chart of one report: the plotted series and the title. *)
Record Chart : Type := mkChart {
  chart_series : list (Timestamp * num);
  chart_title : string
}.

Inductive Flowable : Type :=
| Paragraph (text : string) (style : Style)
| Spacer (width height : Z)
| Table (table_data : list (list string)) (colWidths : list Z)
        (roi_color : Color)
| RLImage (chart : Chart) (width height : Z)
| PageBreak.

(** How a call of [save_pdf] ends. *)
Inductive Saved : Type :=
| Cancelled                       (* the dialog was cancelled: early return *)
| MarkupError                     (* a [Paragraph] raised *)
| Story (story : list Flowable).  (* the story given to [doc.build] *)

(** [initialfile] of the save dialog. *)
Definition initialfile (period : string) : string :=
  ("Client_Reports_" ++ Str.replace " " "_" period ++ ".pdf")%string.

Section Render.

Variable fmt_comma_0f : num -> string.
Variable fmt_1f : num -> string.
Variable fmt_2f : num -> string.

(** [str.upper] *)
Variable upper : string -> string.

(** reportlab's paragraph parser: [Paragraph(text, style)] parses the
    mark-up of [text] when it is built and raises when the mark-up is
    malformed; [parses text] says that it is accepted. *)
Variable parses : string -> bool.

(** ["+" if x >= 0 else ""] *)
Definition plus_sign (x : num) : string := if geb x zero then "+" else "".

Definition table_of (data : ClientReport) : Flowable :=
  let roi_color := if geb (roi_pct (delta data)) zero then green else red in
  let roi_sign := plus_sign (roi_pct (delta data)) in
  let spend_sign := plus_sign (spend_pct (delta data)) in
  Table
    [ ["METRIC"; "THIS MONTH"; "LAST MONTH"; "% CHANGE"];
      ["Total Ad Spend";
       "$" ++ fmt_comma_0f (spend (current data));
       "$" ++ fmt_comma_0f (spend (prev data));
       spend_sign ++ fmt_1f (spend_pct (delta data)) ++ "%"];
      ["ROAS (ROI)";
       fmt_2f (roi (current data)) ++ "x";
       fmt_2f (roi (prev data)) ++ "x";
       roi_sign ++ fmt_1f (roi_pct (delta data)) ++ "%"];
      ["Conversion Rate";
       fmt_1f (conv (current data)) ++ "%";
       fmt_1f (conv (prev data)) ++ "%";
       roi_sign ++ fmt_1f (conv_pct (delta data)) ++ "%"] ]%string
    [150; 100; 100; 100]%Z
    roi_color.

(** The texts of the five paragraphs of one report, in the order in
    which they are built. *)
Definition page_texts (period company : string) (data : ClientReport)
  : list string :=
  [ "MONTHLY PERFORMANCE REPORT"; upper company; "Period: " ++ period;
    "EXECUTIVE SUMMARY"; narrative data ]%string.

(** The flowables appended for one report; [None] when one of its
    paragraphs raises. *)
Definition page (period company : string) (data : ClientReport)
  : option (list Flowable) :=
  if forallb parses (page_texts period company data) then
    Some [ Paragraph "MONTHLY PERFORMANCE REPORT" sub_style;
           Paragraph (upper company) title_style;
           Paragraph ("Period: " ++ period) sub_style;
           Spacer 1 10;
           table_of data;
           Spacer 1 20;
           Paragraph "EXECUTIVE SUMMARY" h2_style;
           Paragraph (narrative data) body_style;
           Spacer 1 10;
           RLImage {| chart_series := trend_data data;
                      chart_title := "Daily ROI Trend (" ++ period ++ ")" |}
                   450 200;
           PageBreak ]%string
  else None.

Fixpoint story_of (period : string) (items : Dict.dict ClientReport)
  : option (list Flowable) :=
  match items with
  | [] => Some []
  | (company, data) :: rest =>
      match page period company data with
      | None => None
      | Some flowables =>
          match story_of period rest with
          | None => None
          | Some story => Some (flowables ++ story)
          end
      end
  end.

(** [save_pdf] up to the call of [doc.build]: [save_path] is what the
    dialog returned, empty when it was cancelled. *)
Definition save_pdf (st : State) (save_path : string) : Saved :=
  match save_path with
  | EmptyString => Cancelled
  | _ =>
      match story_of (reporting_period st) (client_reports st) with
      | Some story => Story story
      | None => MarkupError
      end
  end.

End Render.

End Render.

(** ** The program *)

Module Main.

Import Num Cal Pd App Render.

(** How a run of [__main__] ends.  [Completed] is a run that got to the
    end of [save_pdf] as modelled: the dialog was cancelled, or the story
    was handed to [doc.build]. *)
Inductive Ending : Type :=
| Completed
| NoModel        (* [get_api_key] answered False *)
| NoFile         (* no file was selected *)
| LoadExit       (* [load_data] called [sys.exit] *)
| AnalyzeRaised  (* [analyze] raised: the run ends in a traceback *)
| RenderRaised.  (* a [Paragraph] of [save_pdf] raised: traceback *)

Section Main.

Variable kernel : Series -> Series.
Variable fmt_comma_0f : num -> string.
Variable fmt_1f : num -> string.
Variable fmt_2f : num -> string.
Variable upper : string -> string.
Variable parses : string -> bool.
Variable svc : Type.
Variable generate_content : string -> string -> svc -> option string * svc.

(** What a run leaves: the application object ([None] when [analyze]
    raised and left it half updated), the state of the reasoning service,
    the story given to [doc.build] if any, and how the run ended. *)
Record Run : Type := mkRun {
  final : option State;
  service : svc;
  document : option (list Flowable);
  ending : Ending
}.

(** [__main__]: [entered] is the key typed into the dialog, [listing] the
    answer of [genai.list_models()], [path] the file selected, [loaded] the
    frame [load_data] ends with ([None] when it exits), [save_path] the
    answer of the save dialog, [w] the state of the reasoning service. *)
Definition main (entered : option string) (listing : option (list ModelInfo))
    (path : string) (loaded : option DataFrame) (save_path : string) (w : svc)
  : Run :=
  let (st1, ok) := get_api_key entered listing init in
  if ok then
    match path with
    | EmptyString =>
        {| final := Some st1; service := w; document := None;
           ending := NoFile |}
    | _ =>
        match loaded with
        | None =>
            {| final := Some st1; service := w; document := None;
               ending := LoadExit |}
        | Some rows =>
            let st2 := load_data rows st1 in
            match analyze kernel st2 with
            | None =>
                {| final := None; service := w; document := None;
                   ending := AnalyzeRaised |}
            | Some st3 =>
                let (st4, w') :=
                  generate_report_text fmt_comma_0f fmt_1f fmt_2f
                    generate_content st3 w in
                match save_pdf fmt_comma_0f fmt_1f fmt_2f upper parses
                        st4 save_path with
                | Cancelled =>
                    {| final := Some st4; service := w'; document := None;
                       ending := Completed |}
                | Story story =>
                    {| final := Some st4; service := w';
                       document := Some story; ending := Completed |}
                | MarkupError =>
                    {| final := Some st4; service := w'; document := None;
                       ending := RenderRaised |}
                end
            end
        end
    end
  else
    {| final := Some st1; service := w; document := None; ending := NoModel |}.

End Main.

End Main.

(** ** Further vocabulary *)

Module Trace.

Import Num Cal Pd App Render.

(** The state of the service after one call per item, in order. *)
Definition service_after (svc : Type)
    (generate_content : string -> string -> svc -> option string * svc)
    (prompt_of : string -> ClientReport -> string) (m : string)
    (items : Dict.dict ClientReport) (w : svc) : svc :=
  fold_left (fun w kv => snd (generate_content m (prompt_of (fst kv) (snd kv)) w))
            items w.

(** The answers of the service to one call per item, in order, each call
    made in the state the call before left the service in. *)
Fixpoint answers (svc : Type)
    (generate_content : string -> string -> svc -> option string * svc)
    (prompt_of : string -> ClientReport -> string) (m : string)
    (items : Dict.dict ClientReport) (w : svc) : list (option string) :=
  match items with
  | [] => []
  | kv :: rest =>
      let a := generate_content m (prompt_of (fst kv) (snd kv)) w in
      fst a :: answers generate_content prompt_of m rest (snd a)
  end.

(** The narrative that belongs to an answer of the service. *)
Definition narrative_of (answer : option string) : string :=
  match answer with
  | Some text => clean text
  | None => "AI Unavailable."
  end.

(** A company has rows in the current window. *)
Definition has_current (p : Periods) (d : DataFrame) (company : string) : bool :=
  negb (empty (curr_df p company d)).

(** The paragraph texts of a whole document. *)
Definition document_texts (upper : string -> string) (period : string)
    (items : Dict.dict ClientReport) : list string :=
  flat_map (fun kv => page_texts upper period (fst kv) (snd kv)) items.

(** The texts of the paragraphs of a story set in a given style. *)
Fixpoint texts_in (sty : Style) (story : list Flowable) : list string :=
  match story with
  | [] => []
  | Paragraph text sty' :: rest =>
      match sty, sty' with
      | title_style, title_style | sub_style, sub_style
      | h2_style, h2_style | body_style, body_style => text :: texts_in sty rest
      | _, _ => texts_in sty rest
      end
  | _ :: rest => texts_in sty rest
  end.

Definition is_page_break (f : Flowable) : bool :=
  match f with PageBreak => true | _ => false end.

(** The characters of a string. *)
Definition chars (s : string) : list ascii := list_ascii_of_string s.

End Trace.

(* ================================================================== *)
(** * Part II. Properties *)
(* ================================================================== *)

(** ** Order and division of numbers *)

Section NumFacts.

Import Num.


Lemma num_leb_total (x y : num) :
  isna x = false -> isna y = false -> leb x y = true \/ leb y x = true.
Proof.
  unfold leb. destruct x, y; simpl; intros; try discriminate; auto.
  unfold Qccompare. rewrite <- (Qcompare_antisym q0 q).
  destruct (q0 ?= q)%Q; simpl; auto.
Qed.

Lemma num_leb_Fin (a b : Qc) : leb (Fin a) (Fin b) = true <-> (a <= b)%Qc.
Proof.
  unfold leb. simpl. rewrite Qcle_alt.
  destruct (a ?= b)%Qc; split; intros; congruence.
Qed.

Lemma num_leb_trans (x y z : num) :
  leb x y = true -> leb y z = true -> leb x z = true.
Proof.
  destruct x, y, z; try (unfold leb; simpl; intros; congruence).
  rewrite !num_leb_Fin. apply Qcle_trans.
Qed.



(** Dividing by 1 changes nothing. *)
Lemma num_div_one (x : num) : div x one = x.
Proof.
  destruct x; try reflexivity.
  unfold div, one, of_Z.
  replace (sgn (Q2Qc (inject_Z 1))) with Gt by reflexivity.
  f_equal. change (Q2Qc (inject_Z 1)) with 1%Qc.
  field. intros H. apply (f_equal this) in H. discriminate H.
Qed.

End NumFacts.

(** ** The calendar *)

Section CalFacts.

Import Cal.

Lemma cal_leb_iff (a b : Timestamp) :
  Cal.leb a b = true <->
  (year a < year b
   \/ (year a = year b
       /\ (month a < month b
           \/ (month a = month b
               /\ (day a < day b \/ (day a = day b /\ tod a <= tod b))))))%Z.
Proof.
  unfold Cal.leb, Cal.compare.
  destruct (Z.compare_spec (year a) (year b));
    [destruct (Z.compare_spec (month a) (month b));
       [destruct (Z.compare_spec (day a) (day b));
          [destruct (Z.compare_spec (tod a) (tod b))|..]|..]|..];
    split; intros; try lia; try congruence.
Qed.

Lemma cal_leb_refl (a : Timestamp) : Cal.leb a a = true.
Proof. apply cal_leb_iff. lia. Qed.

Lemma cal_leb_trans (a b c : Timestamp) :
  Cal.leb a b = true -> Cal.leb b c = true -> Cal.leb a c = true.
Proof. rewrite !cal_leb_iff. lia. Qed.

Lemma cal_leb_total (a b : Timestamp) :
  Cal.leb a b = true \/ Cal.leb b a = true.
Proof. rewrite !cal_leb_iff. lia. Qed.

Lemma cal_leb_false (a b : Timestamp) :
  Cal.leb a b = false -> Cal.leb b a = true.
Proof.
  intros H. destruct (cal_leb_total a b) as [H'|H']; congruence.
Qed.

Lemma days_in_month_bounds (y m : Z) : (28 <= days_in_month y m <= 31)%Z.
Proof.
  unfold days_in_month.
  destruct (m =? 2)%Z; [destruct (is_leap y); lia|].
  destruct ((m =? 4) || (m =? 6) || (m =? 9) || (m =? 11))%Z; lia.
Qed.

Lemma replace_day_1_valid (t : Timestamp) : valid t -> valid (replace_day t 1).
Proof.
  unfold valid, replace_day. intros (Hm & Hd & Ht). simpl.
  pose proof (days_in_month_bounds (year t) (month t)). lia.
Qed.

Lemma replace_day_1_le (t : Timestamp) : valid t -> Cal.le (replace_day t 1) t.
Proof.
  unfold valid, Cal.le. intros (Hm & Hd & Ht). apply cal_leb_iff. simpl. lia.
Qed.

Lemma sub_one_day_valid (t : Timestamp) : valid t -> valid (sub_one_day t).
Proof.
  unfold valid, sub_one_day. intros (Hm & Hd & Ht).
  destruct (Z.ltb_spec 1 (day t)); simpl; [lia|].
  destruct (Z.ltb_spec 1 (month t)); simpl.
  - pose proof (days_in_month_bounds (year t) (month t - 1)). lia.
  - unfold days_in_month. simpl. lia.
Qed.

Lemma add_sub_one_day (t : Timestamp) :
  valid t -> add_one_day (sub_one_day t) = t.
Proof.
  unfold valid, add_one_day, sub_one_day. intros (Hm & Hd & Ht).
  destruct t as [y m d s]; simpl in *.
  destruct (Z.ltb_spec 1 d); simpl.
  - destruct (Z.ltb_spec (d - 1) (days_in_month y m)); [|lia].
    unfold replace_day; simpl. f_equal. lia.
  - assert (d = 1%Z) by lia. subst d.
    destruct (Z.ltb_spec 1 m); simpl.
    + rewrite Z.ltb_irrefl.
      destruct (Z.ltb_spec (m - 1) 12); [|lia]. f_equal. lia.
    + assert (m = 1%Z) by lia. subst m. simpl. f_equal. lia.
Qed.

End CalFacts.

(** ** Frames: maximum date, selections, distinct values *)

Section PdFacts.

Import Num Cal Pd.

Lemma fold_max_spec (t : DataFrame) (m0 : Timestamp) :
  let m := fold_left (fun m x => if Cal.leb m (Date x) then Date x else m) t m0 in
  (m = m0 \/ In m (map Date t))
  /\ Cal.leb m0 m = true
  /\ forall r, In r t -> Cal.leb (Date r) m = true.
Proof.
  revert m0. induction t as [|x t IH]; intros m0; simpl.
  - repeat split; auto using cal_leb_refl.
  - set (m1 := if Cal.leb m0 (Date x) then Date x else m0).
    destruct (IH m1) as (Hin & Hge & Hall).
    assert (H0 : Cal.leb m0 m1 = true).
    { unfold m1. destruct (Cal.leb m0 (Date x)) eqn:E; auto using cal_leb_refl. }
    assert (Hx : Cal.leb (Date x) m1 = true).
    { unfold m1. destruct (Cal.leb m0 (Date x)) eqn:E;
        auto using cal_leb_refl, cal_leb_false. }
    repeat split.
    + destruct Hin as [Hin|Hin]; [|now auto].
      rewrite Hin. unfold m1. destruct (Cal.leb m0 (Date x)); auto.
    + eapply cal_leb_trans; eassumption.
    + intros r [<-|Hr]; [|now auto]. eapply cal_leb_trans; eassumption.
Qed.

Lemma max_date_spec (d : DataFrame) (D : Timestamp) :
  max_date d = Some D ->
  In D (map Date d) /\ forall r, In r d -> Cal.le (Date r) D.
Proof.
  destruct d as [|r0 t]; simpl; [discriminate|].
  intros [= <-].
  destruct (fold_max_spec t (Date r0)) as (Hin & Hge & Hall).
  split.
  - destruct Hin as [->|Hin]; auto.
  - intros r [<-|Hr]; [exact Hge|now apply Hall].
Qed.

Lemma empty_false (d : DataFrame) : empty d = false <-> d <> [].
Proof. destruct d; simpl; split; congruence. Qed.

Lemma empty_true (d : DataFrame) : empty d = true <-> d = [].
Proof. destruct d; simpl; split; congruence. Qed.

Lemma is_name_iff (value : string) (cell : option string) :
  is_name value cell = true <-> cell = Some value.
Proof.
  destruct cell as [x|]; simpl; [|split; discriminate].
  rewrite String.eqb_eq. split; congruence.
Qed.

Lemma in_present (cells : list (option string)) (x : string) :
  In x (present cells) <-> In (Some x) cells.
Proof.
  induction cells as [|[y|] t IH]; simpl; [tauto| |].
  - rewrite IH. split; (intros [H|H]; [left; congruence|now right]).
  - rewrite IH. split; [now right|]. intros [H|H]; [discriminate|exact H].
Qed.

Lemma in_of_company (company : string) (d : DataFrame) (r : Row) :
  In r (of_company company d) <-> In r d /\ Company r = Some company.
Proof.
  unfold of_company. rewrite filter_In, is_name_iff. tauto.
Qed.

Lemma in_between (lo hi : Timestamp) (d : DataFrame) (r : Row) :
  In r (between lo hi d) <-> In r d /\ Cal.le lo (Date r) /\ Cal.le (Date r) hi.
Proof.
  unfold between, Cal.le. rewrite filter_In, andb_true_iff. tauto.
Qed.



Lemma in_unique (l : list string) (x : string) : In x (unique l) <-> In x l.
Proof.
  induction l as [|y l IH]; simpl; [tauto|].
  rewrite filter_In, IH, negb_true_iff, String.eqb_neq.
  destruct (string_dec y x); intuition congruence.
Qed.

Lemma NoDup_filter (A : Type) (f : A -> bool) (l : list A) :
  NoDup l -> NoDup (filter f l).
Proof.
  induction 1 as [|x l Hx _ IH]; simpl; [constructor|].
  destruct (f x); [constructor|]; auto.
  rewrite filter_In. tauto.
Qed.

Lemma NoDup_unique (l : list string) : NoDup (unique l).
Proof.
  induction l as [|y l IH]; simpl; constructor.
  - rewrite filter_In, String.eqb_refl. simpl. intros [_ H]. discriminate.
  - now apply NoDup_filter.
Qed.

End PdFacts.

(** ** The reporting windows *)

Section Windows.

Import Cal Pd App.

Lemma periods_prev_month (D : Timestamp) :
  valid D ->
  let p := periods D in
  (year (prev_month_end p), month (prev_month_end p)) =
    (if (month D =? 1)%Z then (year D - 1, 12) else (year D, month D - 1))%Z
  /\ day (prev_month_end p) =
       days_in_month (year (prev_month_end p)) (month (prev_month_end p))
  /\ tod (prev_month_end p) = tod D.
Proof.
  intros (Hm & _ & _). unfold periods, sub_one_day, replace_day. simpl.
  destruct (Z.ltb_spec 1 (month D)); simpl.
  - destruct (Z.eqb_spec (month D) 1); [lia|]. auto.
  - destruct (Z.eqb_spec (month D) 1); [|lia]. auto.
Qed.

(** C2. For a record set with maximum date [D], the current window is
    [first day of D's month, D] and the previous window is the whole prior
    month: current.end = D, previous.end = current.start - 1 day,
    previous.start = first day of the month of previous.end; when [D] is in
    January the previous window is December of the year before. *)
Theorem period_resolver_windows (d : DataFrame) (D : Timestamp) :
  max_date d = Some D ->
  valid D ->
  let p := periods D in
  (In D (map Date d) /\ forall r, In r d -> Cal.le (Date r) D)
  /\ last_date p = D
  /\ current_month_start p = replace_day D 1
  /\ prev_month_end p = sub_one_day (current_month_start p)
  /\ add_one_day (prev_month_end p) = current_month_start p
  /\ prev_month_start p = replace_day (prev_month_end p) 1
  /\ (year (prev_month_end p), month (prev_month_end p)) =
       (if (month D =? 1)%Z then (year D - 1, 12) else (year D, month D - 1))%Z
  /\ day (prev_month_end p) =
       days_in_month (year (prev_month_end p)) (month (prev_month_end p))
  /\ (month D = 1%Z ->
      prev_month_start p =
        {| year := year D - 1; month := 12; day := 1; tod := tod D |}
      /\ prev_month_end p =
        {| year := year D - 1; month := 12; day := 31; tod := tod D |})
  /\ (valid (current_month_start p) /\ valid (prev_month_start p)
      /\ valid (prev_month_end p))
  /\ (Cal.le (current_month_start p) (last_date p)
      /\ Cal.le (prev_month_start p) (prev_month_end p)).
Proof.
  intros Hmax HD p.
  assert (Hc : valid (current_month_start p)).
  { apply (replace_day_1_valid HD). }
  assert (He : valid (prev_month_end p)) by (apply sub_one_day_valid, Hc).
  destruct (periods_prev_month HD) as (Hym & Hday & Htod).
  fold p in Hym, Hday, Htod.
  split; [now apply max_date_spec|].
  repeat match goal with |- _ /\ _ => split end;
    try reflexivity; try assumption.
  - apply add_sub_one_day, Hc.
  - intros H1. unfold p, periods, sub_one_day, replace_day. simpl.
    rewrite H1. simpl. auto.
  - apply (replace_day_1_valid He).
  - apply (replace_day_1_le HD).
  - apply (replace_day_1_le He).
Qed.

Lemma period_resolver_windows_witness :
  max_date Sample.january = Some (Sample.midnight 2024 1 15)
  /\ valid (Sample.midnight 2024 1 15)
  /\ current_month_start (periods (Sample.midnight 2024 1 15)) =
       Sample.midnight 2024 1 1
  /\ prev_month_start (periods (Sample.midnight 2024 1 15)) =
       Sample.midnight 2023 12 1
  /\ prev_month_end (periods (Sample.midnight 2024 1 15)) =
       Sample.midnight 2023 12 31.
Proof.
  assert (H1 : max_date Sample.january = Some (Sample.midnight 2024 1 15))
    by reflexivity.
  assert (H2 : valid (Sample.midnight 2024 1 15))
    by (unfold valid; repeat split; vm_compute; (reflexivity || discriminate)).
  destruct (period_resolver_windows Sample.january H1 H2)
    as (_ & _ & Hc & _ & _ & _ & _ & _ & Hjan & _).
  destruct (Hjan eq_refl) as [Hs He].
  split; [exact H1|]. split; [exact H2|]. split; [exact Hc|].
  split; [exact Hs|exact He].
Defined.

End Windows.

(** ** Capability discovery *)

Section Discovery.

Import App.

Lemma starts_with_iff (p s : string) :
  Str.starts_with p s = true <-> exists b, s = (p ++ b)%string.
Proof.
  revert s. induction p as [|a p IH]; intros s; simpl.
  - split; [eauto|reflexivity].
  - destruct s as [|c s]; simpl.
    + split; [discriminate|]. intros [b Hb]. discriminate.
    + rewrite andb_true_iff, Ascii.eqb_eq, IH. split.
      * intros [-> [b ->]]. eauto.
      * intros [b [= -> ->]]. eauto.
Qed.

(** [contains needle hay] decides whether [needle] occurs in [hay]. *)
Lemma contains_iff (needle hay : string) :
  Str.contains needle hay = true <->
  exists a b, hay = (a ++ needle ++ b)%string.
Proof.
  induction hay as [|c hay IH].
  - simpl. rewrite orb_false_r, starts_with_iff. split.
    + intros [b Hb]. exists EmptyString, b. exact Hb.
    + intros [a [b Hab]]. destruct a; [eauto|discriminate].
  - cbn [Str.contains]. rewrite orb_true_iff, starts_with_iff, IH. split.
    + intros [[b Hb]|[a [b Hab]]].
      * exists EmptyString, b. exact Hb.
      * exists (String c a), b. simpl. now rewrite Hab.
    + intros [a [b Hab]]. destruct a as [|c' a]; simpl in Hab.
      * left. eauto.
      * right. injection Hab as _ Hab. eauto.
Qed.

Lemma mem_iff (s : string) (l : list string) : mem s l = true <-> In s l.
Proof.
  unfold mem. rewrite existsb_exists. split.
  - intros [x [Hx Hs]]. apply String.eqb_eq in Hs. now subst.
  - intros H. exists s. split; [exact H|apply String.eqb_refl].
Qed.

Lemma in_available_models (ms : list ModelInfo) (m : string) :
  In m (available_models ms) <->
  exists i, In i ms /\ name i = m
            /\ In "generateContent" (supported_generation_methods i).
Proof.
  unfold available_models. rewrite in_map_iff. split.
  - intros [i [Hn Hi]]. apply filter_In in Hi. destruct Hi as [Hi Hs].
    apply mem_iff in Hs. eauto.
  - intros [i (Hi & Hn & Hs)]. exists i. split; [exact Hn|].
    apply filter_In. split; [exact Hi|]. now apply mem_iff.
Qed.

(** [find f l] returns the first element that satisfies [f]. *)
Lemma find_first (A : Type) (f : A -> bool) (pre post : list A) (x : A) :
  f x = true -> (forall y, In y pre -> f y = false) ->
  find f (pre ++ x :: post) = Some x.
Proof.
  intros Hx. induction pre as [|y pre IH]; intros Hpre; simpl.
  - now rewrite Hx.
  - rewrite (Hpre y (or_introl eq_refl)). apply IH.
    intros z Hz. apply Hpre. now right.
Qed.

Lemma find_none_iff (A : Type) (f : A -> bool) (l : list A) :
  find f l = None <-> forall y, In y l -> f y = false.
Proof.
  split; [apply find_none|].
  induction l as [|y l IH]; intros H; simpl; [reflexivity|].
  rewrite (H y (or_introl eq_refl)). apply IH. intros z Hz. apply H. now right.
Qed.

(** C6. The prober returns the first entry of the priority list that is
    among the models offering [generateContent]; when no entry is, the
    first of those models whose name contains "gemini"; when there is none
    either, and also when the listing itself fails, no model. *)
Theorem find_working_model_priority (ms : list ModelInfo) :
  let available := available_models ms in
  priorities =
    ["models/gemini-1.5-pro"; "models/gemini-1.5-flash"; "models/gemini-pro"]
  /\ (forall higher p lower,
        priorities = higher ++ p :: lower ->
        In p available ->
        (forall h, In h higher -> ~ In h available) ->
        find_working_model (Some ms) = Some p)
  /\ ((forall p, In p priorities -> ~ In p available) ->
      forall before m after,
        available = before ++ m :: after ->
        (exists a b, m = (a ++ "gemini" ++ b)%string) ->
        (forall x, In x before ->
                   ~ exists a b, x = (a ++ "gemini" ++ b)%string) ->
        find_working_model (Some ms) = Some m)
  /\ ((forall p, In p priorities -> ~ In p available) ->
      (forall m, In m available ->
                 ~ exists a b, m = (a ++ "gemini" ++ b)%string) ->
      find_working_model (Some ms) = None)
  /\ find_working_model None = None.
Proof.
  intros available.
  assert (Hnone : (forall p, In p priorities -> ~ In p available) ->
                  find (fun p => mem p available) priorities = None).
  { intros H. apply find_none_iff. intros p Hp.
    destruct (mem p available) eqn:E; [|reflexivity].
    apply mem_iff in E. now apply H in E. }
  assert (Hnot : forall x, (~ exists a b, x = (a ++ "gemini" ++ b)%string) ->
                           Str.contains "gemini" x = false).
  { intros x Hx. destruct (Str.contains "gemini" x) eqn:E; [|reflexivity].
    apply contains_iff in E. contradiction. }
  split; [reflexivity|]. split; [|split; [|split]].
  - intros higher p lower Hpri Hp Hhigher.
    unfold find_working_model. fold available. rewrite Hpri.
    rewrite find_first; [reflexivity|now apply mem_iff|].
    intros h Hh. destruct (mem h available) eqn:E; [|reflexivity].
    apply mem_iff in E. now apply Hhigher in E.
  - intros Hno before m after Hav Hm Hbefore.
    unfold find_working_model. fold available. rewrite (Hnone Hno), Hav.
    apply find_first; [now apply contains_iff|].
    intros x Hx. apply Hnot. now apply Hbefore.
  - intros Hno Hall.
    unfold find_working_model. fold available. rewrite (Hnone Hno).
    apply find_none_iff. intros m Hm. apply Hnot. now apply Hall.
  - reflexivity.
Qed.

(** The second scenario of the specification: only the legacy model is
    on offer. *)
Lemma find_working_model_priority_witness :
  find_working_model
    (Some [ {| name := "models/gemini-pro";
               supported_generation_methods := ["generateContent"] |} ])
  = Some "models/gemini-pro".
Proof.
  apply (proj1 (proj2 (find_working_model_priority _))
           ["models/gemini-1.5-pro"; "models/gemini-1.5-flash"]
           "models/gemini-pro" []).
  - reflexivity.
  - simpl. auto.
  - simpl. intros h [<-|[<-|[]]] [H|[]]; discriminate.
Defined.

(** When discovery fails the application keeps no model handle. *)
Lemma get_api_key_no_model (entered : option string)
    (listing : option (list ModelInfo)) (st : State) :
  find_working_model listing = None ->
  model st = None ->
  model (fst (get_api_key entered listing st)) = None
  /\ snd (get_api_key entered listing st) = false.
Proof.
  intros H Hm. unfold get_api_key. rewrite H.
  destruct (truthy entered); simpl; auto.
Qed.

End Discovery.

(** ** Dictionaries *)

Section DictFacts.

Variable V : Type.
Implicit Types (d : Dict.dict V) (k : string) (v : V).

Lemma get_set_eq k v d : Dict.get k (Dict.set k v d) = Some v.
Proof.
  induction d as [|[k' v'] d IH]; simpl.
  - now rewrite String.eqb_refl.
  - destruct (String.eqb k' k) eqn:E; simpl; rewrite E; auto.
Qed.

Lemma get_set_neq k k' v d :
  k <> k' -> Dict.get k' (Dict.set k v d) = Dict.get k' d.
Proof.
  intros Hk. induction d as [|[k0 v0] d IH]; simpl.
  - apply String.eqb_neq in Hk. now rewrite Hk.
  - destruct (String.eqb k0 k) eqn:E; simpl.
    + apply String.eqb_eq in E. subst k0.
      apply String.eqb_neq in Hk. now rewrite Hk.
    + now rewrite IH.
Qed.

Lemma in_keys_set k v d x :
  In x (Dict.keys (Dict.set k v d)) <-> x = k \/ In x (Dict.keys d).
Proof.
  unfold Dict.keys. induction d as [|[k0 v0] d IH]; simpl.
  - intuition.
  - destruct (String.eqb k0 k) eqn:E; simpl.
    + apply String.eqb_eq in E. subst k0. intuition.
    + rewrite IH. intuition.
Qed.

Lemma NoDup_keys_set k v d :
  NoDup (Dict.keys d) -> NoDup (Dict.keys (Dict.set k v d)).
Proof.
  unfold Dict.keys. induction d as [|[k0 v0] d IH]; simpl; intros H.
  - repeat constructor. intros [].
  - inversion H as [|? ? Hn Hd]; subst.
    destruct (String.eqb k0 k) eqn:E; simpl.
    + now constructor.
    + constructor; [|now apply IH].
      intros Hin. apply (in_keys_set k v d k0) in Hin.
      apply String.eqb_neq in E. destruct Hin as [Hin|Hin]; [congruence|].
      exact (Hn Hin).
Qed.

Lemma get_some_iff k d : (exists v, Dict.get k d = Some v) <-> In k (Dict.keys d).
Proof.
  unfold Dict.keys. induction d as [|[k0 v0] d IH]; simpl.
  - split; [intros [v Hv]; discriminate|tauto].
  - destruct (String.eqb k0 k) eqn:E.
    + apply String.eqb_eq in E. split; eauto.
    + apply String.eqb_neq in E. rewrite IH. intuition.
Qed.

Lemma get_none_iff k d : Dict.get k d = None <-> ~ In k (Dict.keys d).
Proof.
  rewrite <- get_some_iff. destruct (Dict.get k d) as [v|].
  - split; [discriminate|]. intros H. exfalso. eauto.
  - split; [|reflexivity]. intros _ [v Hv]. discriminate.
Qed.

End DictFacts.

(** ** Sorting *)

Section SortFacts.

Import Num Pd Spec.

Variable A : Type.
Variable le : A -> A -> bool.

Lemma insert_perm (x : A) (l : list A) : Permutation (insert le x l) (x :: l).
Proof.
  induction l as [|y l IH]; simpl; [reflexivity|].
  destruct (le x y); [reflexivity|].
  rewrite IH. apply perm_swap.
Qed.

Lemma isort_perm (l : list A) : Permutation (isort le l) l.
Proof.
  induction l as [|x l IH]; simpl; [reflexivity|].
  rewrite insert_perm. now constructor.
Qed.

Lemma partition_perm (f g : A -> bool) (l : list A) :
  (forall x, g x = negb (f x)) ->
  Permutation (filter f l ++ filter g l) l.
Proof.
  intros Hg. induction l as [|x l IH]; simpl; [reflexivity|].
  rewrite Hg. destruct (f x); simpl.
  - now constructor.
  - rewrite <- Permutation_middle. now constructor.
Qed.

(** Sortedness, for an order that is transitive, and total on the
    elements satisfying [ok]. *)
Variable ok : A -> Prop.
Hypothesis le_total : forall x y, ok x -> ok y -> le x y = true \/ le y x = true.
Hypothesis le_trans : forall x y z, le x y = true -> le y z = true -> le x z = true.

Let leP (x y : A) : Prop := le x y = true.

Lemma le_refl_ok (x : A) : ok x -> le x x = true.
Proof. intros H. now destruct (le_total H H). Qed.

Lemma insert_sorted (x : A) (l : list A) :
  ok x -> Forall ok l -> StronglySorted leP l -> StronglySorted leP (insert le x l).
Proof.
  intros Hx Hok Hs. induction Hs as [|y l Hs IH Hy]; simpl.
  - repeat constructor.
  - inversion Hok as [|? ? Hoky Hokl]; subst.
    destruct (le x y) eqn:E.
    + constructor; [now constructor|].
      constructor; [exact E|].
      eapply Forall_impl; [|exact Hy]. intros z Hz. now apply (le_trans E).
    + constructor; [now apply IH|].
      apply Forall_forall. intros z Hz.
      apply (Permutation_in _ (insert_perm x l)) in Hz.
      destruct Hz as [<-|Hz].
      * destruct (le_total Hx Hoky) as [H|H]; [congruence|exact H].
      * rewrite Forall_forall in Hy. now apply Hy.
Qed.

Lemma Forall_isort (P : A -> Prop) (l : list A) :
  Forall P l -> Forall P (isort le l).
Proof.
  intros H. eapply Permutation_Forall; [|exact H].
  apply Permutation_sym, isort_perm.
Qed.

Lemma isort_sorted (l : list A) : Forall ok l -> StronglySorted leP (isort le l).
Proof.
  induction 1 as [|x l Hx Hl IH]; simpl; [constructor|].
  apply insert_sorted; auto. now apply Forall_isort.
Qed.

Lemma hd_error_rev (l : list A) : hd_error (rev l) = last_opt l.
Proof.
  induction l as [|x l IH]; simpl; [reflexivity|].
  rewrite <- IH. now destruct (rev l).
Qed.

Lemma last_opt_in (l : list A) (m : A) : last_opt l = Some m -> In m l.
Proof.
  revert m. induction l as [|x l IH]; intros m; simpl; [discriminate|].
  destruct (last_opt l) as [m'|]; intros [= <-]; auto.
Qed.

Lemma last_opt_none (l : list A) : last_opt l = None -> l = [].
Proof.
  destruct l as [|x l]; [reflexivity|]. simpl.
  destruct (last_opt l); discriminate.
Qed.

(** The last element of a sorted list is a greatest one. *)
Lemma sorted_last_max (l : list A) (m : A) :
  Forall ok l -> StronglySorted leP l -> last_opt l = Some m ->
  forall y, In y l -> le y m = true.
Proof.
  intros Hok Hs. revert m.
  induction Hs as [|x l Hs IH Hx]; intros m; [discriminate|].
  inversion Hok as [|? ? Hokx Hokl]; subst.
  cbn [last_opt]. destruct (last_opt l) as [m'|] eqn:E.
  - intros [= <-] y [<-|Hy].
    + rewrite Forall_forall in Hx. apply Hx. now apply last_opt_in.
    + now apply IH.
  - apply last_opt_none in E. subst l.
    intros [= <-] y [<-|[]]. now apply le_refl_ok.
Qed.


End SortFacts.

(** ** Grouping and sorting by value *)

Section Ranking.

Import Num Pd App Spec.

Local Abbreviation by_value := (fun a b : string * num => Num.leb (snd a) (snd b)).
Local Abbreviation notna := (fun kv : string * num => negb (isna (snd kv))).
Local Abbreviation defined := (fun kv : string * num => isna (snd kv) = false).

(** The insertion sort is a sorting routine in the sense of [sorts]. *)
Lemma sort_kernel_sorts : sorts Sample.sort_kernel.
Proof.
  intros s Hs. unfold Sample.sort_kernel. split; [apply isort_perm|].
  apply (@isort_sorted _ by_value defined
           (fun x y Hx Hy => @num_leb_total (snd x) (snd y) Hx Hy)
           (fun x y z => @num_leb_trans (snd x) (snd y) (snd z)) s Hs).
Qed.

Lemma in_group_keys (d : DataFrame) (k : string) :
  In k (group_keys d) <-> exists r, In r d /\ Channel_Used r = Some k.
Proof.
  unfold group_keys.
  split.
  - intros H. apply (Permutation_in _ (isort_perm _ _)) in H.
    apply in_unique, in_present, in_map_iff in H.
    destruct H as [r [Hr Hin]]. eauto.
  - intros [r [Hin Hr]].
    apply (Permutation_in _ (Permutation_sym (isort_perm _ _))).
    apply in_unique, in_present, in_map_iff. eauto.
Qed.

Lemma has_channel_iff (cd : DataFrame) :
  has_channel cd = true <-> exists r k, In r cd /\ Channel_Used r = Some k.
Proof.
  unfold has_channel. rewrite existsb_exists. split.
  - intros [r [Hin Hr]]. destruct (Channel_Used r) as [k|] eqn:E; [|discriminate].
    eauto.
  - intros (r & k & Hin & Hr). exists r. now rewrite Hr.
Qed.

Lemma has_channel_keys (cd : DataFrame) :
  has_channel cd = false <-> group_keys cd = [].
Proof.
  split.
  - intros H. destruct (group_keys cd) as [|k ks] eqn:E; [reflexivity|].
    assert (Hk : In k (group_keys cd)) by (rewrite E; now left).
    apply in_group_keys in Hk. destruct Hk as (r & Hin & Hr).
    assert (Ht : has_channel cd = true) by (apply has_channel_iff; eauto).
    congruence.
  - intros H. destruct (has_channel cd) eqn:E; [|reflexivity].
    apply has_channel_iff in E. destruct E as (r & k & Hin & Hr).
    assert (Hk : In k (group_keys cd)) by (apply in_group_keys; eauto).
    rewrite H in Hk. contradiction.
Qed.




Lemma filter_nil_all (A : Type) (f g : A -> bool) (l : list A) :
  (forall x, g x = negb (f x)) -> filter f l = [] -> filter g l = l.
Proof.
  intros Hg. induction l as [|x l IH]; simpl; [reflexivity|].
  rewrite Hg. destruct (f x); [discriminate|]. intros H. simpl. now rewrite IH.
Qed.



Lemma defined_good (s : Series) : Forall defined (rev (filter notna s)).
Proof.
  apply Forall_forall. intros kv Hkv. apply in_rev in Hkv.
  apply filter_In in Hkv. now apply negb_true_iff.
Qed.

Section Kernel.

Variable kernel : Series -> Series.
Hypothesis kernel_sorts : sorts kernel.

Lemma sort_values_desc_perm (s : Series) :
  Permutation (sort_values_desc kernel s) s.
Proof.
  unfold sort_values_desc.
  rewrite <- Permutation_rev.
  rewrite (proj1 (kernel_sorts (defined_good s))), <- Permutation_rev.
  apply partition_perm. intros x. now rewrite negb_involutive.
Qed.

(** The head of the sorted series: the series is left as it is when no
    value is defined; otherwise its head is an entry with a defined value,
    and no defined value is greater. *)
Lemma sort_values_desc_head (s : Series) :
  (filter notna s = [] -> sort_values_desc kernel s = s)
  /\ (filter notna s <> [] ->
      exists m, hd_error (sort_values_desc kernel s) = Some m
                /\ In m (filter notna s)
                /\ forall y, In y (filter notna s) ->
                             Num.leb (snd y) (snd m) = true).
Proof.
  unfold sort_values_desc. split.
  - intros H. rewrite H. simpl.
    assert (Hnil : kernel [] = []).
    { apply Permutation_nil, Permutation_sym.
      apply (proj1 (kernel_sorts (Forall_nil _))). }
    rewrite Hnil. simpl. apply filter_nil_all with (f := notna); auto.
    intros x. now rewrite negb_involutive.
  - intros H. set (good := filter notna s) in *.
    destruct (kernel_sorts (defined_good s)) as [Hperm Hsorted].
    fold good in Hperm, Hsorted.
    set (l := kernel (rev good)) in *.
    assert (Hok : Forall defined l).
    { eapply Permutation_Forall; [apply Permutation_sym, Hperm|].
      apply defined_good. }
    destruct (last_opt l) as [m|] eqn:El.
    + exists m. rewrite <- hd_error_rev in El. split; [|split].
      * destruct (rev l); [discriminate|exact El].
      * rewrite hd_error_rev in El. apply last_opt_in in El.
        apply (Permutation_in _ Hperm) in El. now apply in_rev.
      * intros y Hy. rewrite hd_error_rev in El.
        apply (@sorted_last_max _ by_value defined
                 (fun x y Hx Hy => @num_leb_total (snd x) (snd y) Hx Hy)
                 l m Hok Hsorted El).
        apply (Permutation_in _ (Permutation_sym Hperm)).
        rewrite <- in_rev. exact Hy.
    + exfalso. apply last_opt_none in El.
      rewrite El in Hperm. apply Permutation_nil in Hperm.
      apply (f_equal (@rev _)) in Hperm. rewrite rev_involutive in Hperm.
      auto.
Qed.

Lemma best_chan_some (cd : DataFrame) :
  has_channel cd = true -> exists bc bcr, best_chan kernel cd = Some (bc, bcr).
Proof.
  intros H. apply has_channel_iff in H. destruct H as (r & k & Hin & Hr).
  unfold best_chan.
  destruct cd as [|r0 cd]; [contradiction|]. cbn [empty negb].
  destruct (sort_values_desc kernel (groupby_channel_mean_ROI (r0 :: cd)))
    as [|[bc bcr] s] eqn:E; [|simpl; eauto].
  exfalso.
  assert (Hk : In k (group_keys (r0 :: cd))) by (apply in_group_keys; eauto).
  pose proof (sort_values_desc_perm (groupby_channel_mean_ROI (r0 :: cd))) as P.
  rewrite E in P. apply Permutation_nil in P.
  unfold groupby_channel_mean_ROI in P.
  destruct (group_keys (r0 :: cd)); [contradiction|discriminate].
Qed.

Lemma best_chan_none (cd : DataFrame) :
  cd <> [] -> has_channel cd = false -> best_chan kernel cd = None.
Proof.
  intros Hcd H. apply has_channel_keys in H. unfold best_chan.
  destruct cd as [|r0 cd]; [congruence|]. cbn [empty negb].
  unfold groupby_channel_mean_ROI. rewrite H. cbn [map].
  now rewrite (proj1 (sort_values_desc_head []) eq_refl).
Qed.

End Kernel.

End Ranking.

(** ** The channel ranker *)

Section Ranker.

Import Num Pd App Spec.

Local Abbreviation notna := (fun kv : string * num => negb (isna (snd kv))).





End Ranker.

(** ** The analysis loop *)

Section Analysis.

Import Num Cal Pd App Spec.

Variable kernel : Series -> Series.
Hypothesis kernel_sorts : sorts kernel.

Lemma analyze_company_eq (d : DataFrame) (p : Periods)
    (reports : Dict.dict ClientReport) (c : string) :
  analyze_company kernel d p reports c =
  if empty (curr_df p c d) then Some reports
  else if has_channel (curr_df p c d)
       then Some (Dict.set c (report_for kernel d p c) reports)
       else None.
Proof.
  unfold analyze_company, report_for, figures.
  destruct (empty (curr_df p c d)) eqn:E; [reflexivity|].
  destruct (has_channel (curr_df p c d)) eqn:Hc.
  - destruct (best_chan_some kernel_sorts _ Hc) as (bc & bcr & Hb). rewrite Hb.
    destruct (empty (prev_df p c d)); reflexivity.
  - apply empty_false in E. now rewrite (best_chan_none kernel_sorts E Hc).
Qed.

Lemma in_curr_df (p : Periods) (c : string) (d : DataFrame) (r : Row) :
  In r (curr_df p c d) <->
  In r d /\ selected c (current_month_start p) (last_date p) r.
Proof.
  unfold curr_df, selected. rewrite in_between, in_of_company. tauto.
Qed.

Lemma in_prev_df (p : Periods) (c : string) (d : DataFrame) (r : Row) :
  In r (prev_df p c d) <->
  In r d /\ selected c (prev_month_start p) (prev_month_end p) r.
Proof.
  unfold prev_df, selected. rewrite in_between, in_of_company. tauto.
Qed.

Lemma nonempty_iff (A : Type) (l : list A) : l <> [] <-> exists x, In x l.
Proof.
  destruct l as [|x l]; split; try congruence.
  - intros [x []].
  - intros _. exists x. now left.
Qed.

Lemma curr_df_company (d : DataFrame) (p : Periods) (c : string) :
  curr_df p c d <> [] -> In c (companies d).
Proof.
  intros H. apply nonempty_iff in H. destruct H as [r Hr].
  apply in_curr_df in Hr. destruct Hr as (Hr & Hc & _).
  apply in_unique, in_present. rewrite <- Hc. now apply in_map.
Qed.

Lemma channels_known_iff (p : Periods) (d : DataFrame) :
  channels_known p d = true <->
  forall c, curr_df p c d <> [] -> has_channel (curr_df p c d) = true.
Proof.
  unfold channels_known. rewrite forallb_forall. split.
  - intros H c Hc. specialize (H c (@curr_df_company d p c Hc)).
    apply empty_false in Hc. now rewrite Hc in H.
  - intros H c _. destruct (empty (curr_df p c d)) eqn:E; [reflexivity|].
    apply H. now apply empty_false.
Qed.

(** The same, read off the rows of the frame. *)
Lemma channels_known_rows (p : Periods) (d : DataFrame) :
  channels_known p d = true <->
  forall c,
    (exists r, In r d /\ selected c (current_month_start p) (last_date p) r) ->
    exists r k,
      In r d /\ selected c (current_month_start p) (last_date p) r
      /\ Channel_Used r = Some k.
Proof.
  rewrite channels_known_iff. split.
  - intros H c [r Hr]. apply in_curr_df in Hr.
    assert (Hne : curr_df p c d <> []) by (apply nonempty_iff; eauto).
    apply H, has_channel_iff in Hne. destruct Hne as (x & k & Hx & Hk).
    apply in_curr_df in Hx. exists x, k. tauto.
  - intros H c Hne. apply nonempty_iff in Hne. destruct Hne as [r Hr].
    apply in_curr_df in Hr. destruct (H c (ex_intro _ r Hr)) as (x & k & Hx & Hs & Hk).
    apply has_channel_iff. exists x, k. split; [|exact Hk].
    apply in_curr_df. auto.
Qed.

Local Abbreviation passes p d :=
  (fun c => empty (curr_df p c d) || has_channel (curr_df p c d)).

Lemma analyze_loop_spec (d : DataFrame) (p : Periods) (cs : list string) :
  forallb (passes p d) cs = true ->
  forall reports,
  exists reports',
    analyze_loop kernel d p reports cs = Some reports'
    /\ (forall c,
          Dict.get c reports' =
          if mem c cs && negb (empty (curr_df p c d))
          then Some (report_for kernel d p c) else Dict.get c reports)
    /\ (NoDup (Dict.keys reports) -> NoDup (Dict.keys reports')).
Proof.
  induction cs as [|c0 cs IH]; intros Hok reports; cbn [analyze_loop].
  - exists reports. auto.
  - cbn [forallb] in Hok. apply andb_true_iff in Hok. destruct Hok as [H0 Hok].
    rewrite analyze_company_eq.
    set (r1 := if empty (curr_df p c0 d) then reports
               else Dict.set c0 (report_for kernel d p c0) reports).
    assert (Hr1 : (if empty (curr_df p c0 d) then Some reports
                   else if has_channel (curr_df p c0 d)
                        then Some (Dict.set c0 (report_for kernel d p c0) reports)
                        else None) = Some r1).
    { unfold r1. destruct (empty (curr_df p c0 d)); [reflexivity|].
      simpl in H0. now rewrite H0. }
    rewrite Hr1.
    destruct (IH Hok r1) as (reports' & Hloop & Hget & Hnd).
    exists reports'. split; [exact Hloop|]. split.
    + intros c. rewrite Hget.
      change (mem c (c0 :: cs)) with (String.eqb c c0 || mem c cs).
      destruct (mem c cs && negb (empty (curr_df p c d))) eqn:E1.
      * rewrite andb_true_iff in E1. destruct E1 as [E1 E2].
        now rewrite E1, E2, orb_true_r.
      * unfold r1. destruct (String.eqb c c0) eqn:E0.
        -- apply String.eqb_eq in E0. subst c0. cbn [orb andb].
           destruct (empty (curr_df p c d)); cbn [negb]; [reflexivity|].
           apply get_set_eq.
        -- cbn [orb]. rewrite E1.
           destruct (empty (curr_df p c0 d)); [reflexivity|].
           apply get_set_neq. apply String.eqb_neq in E0. congruence.
    + intros H. apply Hnd. unfold r1.
      destruct (empty (curr_df p c0 d)); [exact H|].
      now apply NoDup_keys_set.
Qed.

Lemma analyze_loop_raises (d : DataFrame) (p : Periods) (cs : list string) :
  forallb (passes p d) cs = false ->
  forall reports, analyze_loop kernel d p reports cs = None.
Proof.
  induction cs as [|c0 cs IH]; intros Hok reports; [discriminate|].
  cbn [analyze_loop]. cbn [forallb] in Hok. rewrite analyze_company_eq.
  destruct (empty (curr_df p c0 d)); simpl in Hok.
  - now apply IH.
  - destruct (has_channel (curr_df p c0 d)); [now apply IH|reflexivity].
Qed.

(** What [analyze] leaves in the application state. *)
Lemma analyze_spec (st : State) (d : DataFrame) (D : Timestamp) :
  df st = Some d ->
  max_date d = Some D ->
  channels_known (periods D) d = true ->
  exists st',
    analyze kernel st = Some st'
    /\ df st' = Some d /\ api_key st' = api_key st /\ model st' = model st
    /\ reporting_period st' = strftime_B_Y (current_month_start (periods D))
    /\ (forall c,
          Dict.get c (client_reports st') =
          if empty (curr_df (periods D) c d) then Dict.get c (client_reports st)
          else Some (report_for kernel d (periods D) c))
    /\ (NoDup (Dict.keys (client_reports st)) ->
        NoDup (Dict.keys (client_reports st'))).
Proof.
  intros Hdf Hmax Hch. unfold analyze. rewrite Hdf, Hmax.
  destruct (analyze_loop_spec d (periods D) (companies d) Hch
              (client_reports st)) as (reports' & Hloop & Hget & Hnd).
  rewrite Hloop. eexists. split; [reflexivity|]. simpl.
  repeat split; auto.
  intros c. rewrite Hget.
  destruct (empty (curr_df (periods D) c d)) eqn:E.
  - now rewrite andb_false_r.
  - rewrite andb_true_r.
    assert (Hc : mem c (companies d) = true).
    { apply mem_iff.
      apply (@curr_df_company d (periods D)). now apply empty_false. }
    now rewrite Hc.
Qed.

Lemma analyze_raises (st : State) (d : DataFrame) (D : Timestamp) :
  df st = Some d ->
  max_date d = Some D ->
  channels_known (periods D) d = false ->
  analyze kernel st = None.
Proof.
  intros Hdf Hmax Hch. unfold analyze. rewrite Hdf, Hmax.
  now rewrite (analyze_loop_raises d (periods D) (companies d) Hch).
Qed.

End Analysis.

(** ** What the analysis stores *)

Section Reports.

Import Num Cal Pd App Spec.

(** C1. For a client with rows in the current window the delta computed
    is, in each of the three dimensions, [(curr - prev) / prev * 100],
    where [curr] aggregates the client's rows of the current window and
    [prev] aggregates its rows of the previous window when there are some
    and is the sentinel (1, 1, 1) when there are none; and these are the
    figures of the report stored for the client when [analyze] returns,
    which it does when every client with current rows has a channel in one
    of them. *)
Theorem delta_against_previous_or_sentinel
    (kernel : Series -> Series)
    (st : State) (d : DataFrame) (D : Timestamp) (c : string) :
  sorts kernel ->
  df st = Some d ->
  max_date d = Some D ->
  (exists r, In r d /\ selected c (current_month_start (periods D)) D r) ->
  let cd := curr_df (periods D) c d in
  let pd := prev_df (periods D) c d in
  exists curr prv dl,
    figures cd pd = (curr, prv, dl)
    /\ (forall r,
          In r cd <->
          In r d /\ selected c (current_month_start (periods D)) D r)
    /\ (forall r,
          In r pd <->
          In r d /\ selected c (prev_month_start (periods D))
                             (prev_month_end (periods D)) r)
    /\ curr = get_metrics cd
    /\ ((exists r, In r d /\ selected c (prev_month_start (periods D))
                                      (prev_month_end (periods D)) r) ->
        prv = get_metrics pd)
    /\ ((forall r, In r d -> ~ selected c (prev_month_start (periods D))
                                        (prev_month_end (periods D)) r) ->
        prv = {| spend := of_Z 1; roi := of_Z 1; conv := of_Z 1 |})
    /\ spend_pct dl =
         mul (div (sub (spend curr) (spend prv)) (spend prv)) (of_Z 100)
    /\ roi_pct dl =
         mul (div (sub (roi curr) (roi prv)) (roi prv)) (of_Z 100)
    /\ conv_pct dl =
         mul (div (sub (conv curr) (conv prv)) (conv prv)) (of_Z 100)
    /\ (channels_known (periods D) d = true ->
        exists st' rep,
          analyze kernel st = Some st'
          /\ Dict.get c (client_reports st') = Some rep
          /\ current rep = curr /\ prev rep = prv /\ delta rep = dl).
Proof.
  intros Hk Hdf Hmax Hcur cd pd.
  assert (Hne : cd <> []).
  { apply nonempty_iff. destruct Hcur as [r Hr]. exists r.
    now apply in_curr_df. }
  exists (get_metrics cd),
         (if negb (empty pd) then get_metrics pd else sentinel),
         (get_delta (get_metrics cd)
            (if negb (empty pd) then get_metrics pd else sentinel)).
  split; [reflexivity|].
  split; [intros r; apply in_curr_df|].
  split; [intros r; apply in_prev_df|].
  split; [reflexivity|]. split; [|split].
  - intros [r Hr]. apply in_prev_df in Hr. fold pd in Hr.
    destruct pd; [contradiction|reflexivity].
  - intros Hnone.
    destruct pd as [|r t] eqn:E; [reflexivity|].
    exfalso. assert (Hr : In r (prev_df (periods D) c d)).
    { fold pd. rewrite E. now left. }
    apply in_prev_df in Hr. destruct Hr as [Hin Hs]. exact (Hnone r Hin Hs).
  - split; [reflexivity|]. split; [reflexivity|]. split; [reflexivity|].
    intros Hch.
    destruct (analyze_spec Hk st Hdf Hmax Hch)
      as (st' & Han & _ & _ & _ & _ & Hget & _).
    exists st', (report_for kernel d (periods D) c).
    split; [exact Han|]. split.
    + rewrite Hget. apply empty_false in Hne. fold cd. now rewrite Hne.
    + unfold report_for. cbn [current prev delta]. fold cd pd.
      now destruct (empty pd).
Qed.

Lemma delta_against_previous_or_sentinel_witness :
  exists st' rep,
    analyze Sample.sort_kernel (load_data Sample.free_month init) = Some st'
    /\ Dict.get "Acme" (client_reports st') = Some rep
    /\ prev rep =
       get_metrics
         [ {| Date := Sample.midnight 2024 2 10; Company := Some "Acme";
              Channel_Used := Some "Search";
              Acquisition_Cost := Sample.q 0 1; ROI := Sample.q 2 1;
              Conversion_Rate := Sample.q 1 10 |} ]
    /\ roi_pct (delta rep) =
         mul (div (sub (roi (current rep)) (roi (prev rep))) (roi (prev rep)))
             hundred.
Proof.
  destruct (@delta_against_previous_or_sentinel Sample.sort_kernel
              (load_data Sample.free_month init) Sample.free_month
              (Sample.midnight 2024 3 10) "Acme" sort_kernel_sorts
              eq_refl eq_refl)
    as (curr & prv & dl & _ & _ & _ & _ & Hprev & _ & _ & Hroi & _ & Hrep).
  - eexists. split; [left; reflexivity|]. repeat split; reflexivity.
  - destruct (Hrep eq_refl) as (st' & rep & Han & Hget & Hc & Hp & Hd).
    exists st', rep. split; [exact Han|]. split; [exact Hget|].
    rewrite Hc, Hp, Hd. split; [|exact Hroi]. rewrite Hprev; [reflexivity|].
    eexists. split; [right; left; reflexivity|]. repeat split; reflexivity.
Defined.

End Reports.

(** ** Empty subsets, zero divisors and blank channels *)

Section Degenerate.

Import Num Cal Pd App Spec.





(** C8 at a client whose rows of the previous month add up to a cost of
    zero: the previous selection is not empty, so the sentinel is not put
    in; the divisor of the spend delta is zero and the delta stored is
    infinite. *)
Lemma zero_divisor_reached :
  match analyze Sample.sort_kernel (load_data Sample.free_month init) with
  | Some st' =>
      match Dict.get "Acme" (client_reports st') with
      | Some rep =>
          negb (empty (prev_df (periods (Sample.midnight 2024 3 10)) "Acme"
                               Sample.free_month))
          && Num.eqb (spend (prev rep)) zero
          && match spend_pct (delta rep) with PInf => true | _ => false end
      | None => false
      end
  | None => false
  end = true.
Proof. vm_compute. reflexivity. Qed.

(** C9 at a client whose only row of the month has a blank channel: the
    client has a row in the current window, the grouped series is empty,
    [index[0]] raises and no report is left for anyone. *)
Lemma blank_channel_raises :
  curr_df (periods (Sample.midnight 2024 3 5)) "Acme" Sample.blank_channel
    = Sample.blank_channel
  /\ groupby_channel_mean_ROI Sample.blank_channel = []
  /\ best_chan Sample.sort_kernel Sample.blank_channel = None
  /\ analyze Sample.sort_kernel (load_data Sample.blank_channel init) = None.
Proof. vm_compute. repeat split. Qed.

End Degenerate.

(** ** The narrative stage *)

Section NarrativeFacts.

Import Num Cal Pd App Spec Trace.

Variable fmt_comma_0f fmt_1f fmt_2f : num -> string.
Variable svc : Type.
Variable generate_content : string -> string -> svc -> option string * svc.

Let narrate := narrate fmt_comma_0f fmt_1f fmt_2f generate_content.
Let narrate_items := narrate_items fmt_comma_0f fmt_1f fmt_2f generate_content.
Let generate_report_text :=
  generate_report_text fmt_comma_0f fmt_1f fmt_2f generate_content.
Let build_prompt := build_prompt fmt_comma_0f fmt_1f fmt_2f.

Lemma same_figures_set_narrative (text : string) (data : ClientReport) :
  same_figures data (set_narrative text data).
Proof. unfold same_figures. simpl. repeat split. Qed.

Lemma narrate_sets_narrative (st : State) (c : string) (data : ClientReport)
    (w : svc) :
  exists text, fst (narrate st c data w) = set_narrative text data.
Proof.
  unfold narrate, App.narrate.
  destruct (truthy (api_key st)), (model st) as [m|];
    try (cbn [fst]; eexists; reflexivity).
  destruct (generate_content m _ w) as [[text|] w'];
    cbn [fst]; eexists; reflexivity.
Qed.

Lemma narrate_items_cons (st : State) (c : string) (data : ClientReport)
    (rest : Dict.dict ClientReport) (w : svc) :
  narrate_items st ((c, data) :: rest) w =
  ((c, fst (narrate st c data w))
     :: fst (narrate_items st rest (snd (narrate st c data w))),
   snd (narrate_items st rest (snd (narrate st c data w)))).
Proof.
  unfold narrate_items, narrate. cbn [App.narrate_items].
  destruct (App.narrate _ _ _ _ st c data w) as [data' w1]. cbn [fst snd].
  destruct (App.narrate_items _ _ _ _ st rest w1) as [rest' w2]. reflexivity.
Qed.

Lemma narrate_items_frame (st : State) (items : Dict.dict ClientReport) :
  forall w,
    Forall2 (fun a b => fst a = fst b /\ same_figures (snd a) (snd b))
            items (fst (narrate_items st items w)).
Proof.
  induction items as [|[c data] rest IH]; intros w.
  - constructor.
  - rewrite narrate_items_cons. cbn [fst]. constructor; [|apply IH].
    cbn [fst snd]. split; [reflexivity|].
    destruct (narrate_sets_narrative st c data w) as [text ->].
    apply same_figures_set_narrative.
Qed.

Lemma narrate_items_app (st : State) (before after : Dict.dict ClientReport) :
  forall w,
    narrate_items st (before ++ after) w =
    (fst (narrate_items st before w)
       ++ fst (narrate_items st after (snd (narrate_items st before w))),
     snd (narrate_items st after (snd (narrate_items st before w)))).
Proof.
  induction before as [|[c data] rest IH]; intros w.
  - simpl. now destruct (narrate_items st after w).
  - rewrite <- app_comm_cons, !narrate_items_cons, IH. reflexivity.
Qed.

Lemma narrate_items_length (st : State) (items : Dict.dict ClientReport) (w : svc) :
  List.length (fst (narrate_items st items w)) = List.length items.
Proof.
  symmetry. eapply Forall2_length. apply narrate_items_frame.
Qed.

Lemma narrate_items_keys (st : State) (items : Dict.dict ClientReport) (w : svc) :
  Dict.keys (fst (narrate_items st items w)) = Dict.keys items.
Proof.
  unfold Dict.keys.
  induction (narrate_items_frame st items w) as [|a b l l' [Hk _] _ IH];
    simpl; congruence.
Qed.

Lemma narrate_items_demo (st : State) (items : Dict.dict ClientReport) (w : svc) :
  truthy (api_key st) = false \/ model st = None ->
  narrate_items st items w =
  (map (fun kv => (fst kv, set_narrative demo_mode (snd kv))) items, w).
Proof.
  intros H. induction items as [|[c data] rest IH].
  - reflexivity.
  - rewrite narrate_items_cons.
    assert (Hn : narrate st c data w = (set_narrative demo_mode data, w)).
    { unfold narrate, App.narrate.
      destruct H as [-> | ->]; [now destruct (model st)|].
      now destruct (truthy (api_key st)). }
    rewrite Hn. cbn [fst snd]. rewrite IH. reflexivity.
Qed.

Lemma generate_report_text_eq (st : State) (w : svc) :
  generate_report_text st w =
  ({| df := df st;
      client_reports := fst (narrate_items st (client_reports st) w);
      api_key := api_key st; model := model st; model_name := model_name st;
      reporting_period := reporting_period st |},
   snd (narrate_items st (client_reports st) w)).
Proof.
  unfold generate_report_text, App.generate_report_text, narrate_items.
  now destruct (App.narrate_items _ _ _ _ st (client_reports st) w).
Qed.

Lemma client_reports_generate (st : State) (w : svc) :
  client_reports (fst (generate_report_text st w)) =
  fst (narrate_items st (client_reports st) w).
Proof.
  unfold generate_report_text, App.generate_report_text, narrate_items.
  destruct (App.narrate_items _ _ _ _ st (client_reports st) w). reflexivity.
Qed.

Lemma get_Forall2 (R : ClientReport -> ClientReport -> Prop)
    (items items' : Dict.dict ClientReport) :
  Forall2 (fun a b => fst a = fst b /\ R (snd a) (snd b)) items items' ->
  forall c rep,
    Dict.get c items = Some rep ->
    exists rep', Dict.get c items' = Some rep' /\ R rep rep'.
Proof.
  induction 1 as [|[k v] [k' v'] l l' [Hk Hr] _ IH]; intros c rep; simpl.
  - discriminate.
  - simpl in Hk, Hr. subst k'. destruct (String.eqb k c).
    + intros [= <-]. eauto.
    + apply IH.
Qed.

Lemma narrate_with_model (st : State) (m c : string) (data : ClientReport)
    (w : svc) :
  truthy (api_key st) = true ->
  model st = Some m ->
  narrate st c data w =
  (set_narrative
     (narrative_of
        (fst (generate_content m (build_prompt (reporting_period st) c data) w)))
     data,
   snd (generate_content m (build_prompt (reporting_period st) c data) w)).
Proof.
  intros Hk Hm. unfold narrate, App.narrate. rewrite Hk, Hm.
  fold build_prompt.
  now destruct (generate_content m _ w) as [[text|] w'].
Qed.

(** With a key and a model: the state the service is left in, and the
    narratives stored, call by call. *)
Lemma narrate_items_with_model (st : State) (m : string)
    (items : Dict.dict ClientReport) :
  truthy (api_key st) = true ->
  model st = Some m ->
  forall w,
    snd (narrate_items st items w) =
      service_after generate_content (build_prompt (reporting_period st)) m
        items w
    /\ map (fun kv => narrative (snd kv)) (fst (narrate_items st items w)) =
       map narrative_of
           (answers generate_content (build_prompt (reporting_period st)) m
              items w).
Proof.
  intros Hk Hm. induction items as [|[c data] rest IH]; intros w.
  - split; reflexivity.
  - unfold narrate_items. rewrite narrate_items_cons.
    fold narrate_items. fold narrate.
    rewrite (narrate_with_model st c data w Hk Hm). cbn [fst snd].
    destruct (IH (snd (generate_content m
                         (build_prompt (reporting_period st) c data) w)))
      as [IH1 IH2].
    split; [exact IH1|].
    cbn [map answers fst snd narrative set_narrative]. now rewrite IH2.
Qed.

Lemma Forall2_map_r (A B : Type) (R : A -> B -> Prop) (f : A -> B)
    (l : list A) :
  (forall x, In x l -> R x (f x)) -> Forall2 R l (map f l).
Proof.
  induction l as [|x l IH]; intros H; simpl; constructor.
  - apply H. now left.
  - apply IH. intros y Hy. apply H. now right.
Qed.

(** C7. A client whose generation call fails keeps its report, with all
    its figures, and its narrative becomes the fixed text
    "AI Unavailable."; no client is dropped.  Without a usable model, or
    without a key, the narrative of every report becomes the fixed
    demo-mode text, the stage returns, the service is not called and
    nothing else changes. *)
Theorem narrative_fallbacks (st : State) (w : svc) :
  Dict.keys (client_reports (fst (generate_report_text st w))) =
    Dict.keys (client_reports st)
  /\ (forall before c data after m,
        client_reports st = before ++ (c, data) :: after ->
        truthy (api_key st) = true ->
        model st = Some m ->
        fst (generate_content m (build_prompt (reporting_period st) c data)
               (service_after generate_content
                  (build_prompt (reporting_period st)) m before w)) = None ->
        exists data',
          nth_error (client_reports (fst (generate_report_text st w)))
                    (List.length before) = Some (c, data')
          /\ narrative data' = "AI Unavailable."
          /\ current data' = current data /\ prev data' = prev data
          /\ delta data' = delta data
          /\ best_channel data' = best_channel data
          /\ best_channel_roi data' = best_channel_roi data
          /\ trend_data data' = trend_data data)
  /\ (truthy (api_key st) = false \/ model st = None ->
      let st' := fst (generate_report_text st w) in
      snd (generate_report_text st w) = w
      /\ Forall2 (fun a b =>
                    fst b = fst a
                    /\ narrative (snd b) = "Demo Mode: AI analysis skipped."
                    /\ current (snd b) = current (snd a)
                    /\ prev (snd b) = prev (snd a)
                    /\ delta (snd b) = delta (snd a)
                    /\ best_channel (snd b) = best_channel (snd a)
                    /\ best_channel_roi (snd b) = best_channel_roi (snd a)
                    /\ trend_data (snd b) = trend_data (snd a))
                 (client_reports st) (client_reports st')
      /\ df st' = df st /\ api_key st' = api_key st /\ model st' = model st
      /\ model_name st' = model_name st
      /\ reporting_period st' = reporting_period st).
Proof.
  split; [|split].
  - rewrite client_reports_generate. apply narrate_items_keys.
  - intros before c data after m Hitems Hkey Hmodel Hfail.
    exists (set_narrative "AI Unavailable." data).
    split; [|cbn [set_narrative narrative current prev delta best_channel
                  best_channel_roi trend_data]; repeat split].
    rewrite client_reports_generate, Hitems, narrate_items_app. cbn [fst].
    rewrite nth_error_app2; rewrite narrate_items_length; [|lia].
    rewrite Nat.sub_diag, narrate_items_cons. cbn [fst nth_error].
    do 2 f_equal.
    rewrite (proj1 (narrate_items_with_model st before Hkey Hmodel w)).
    rewrite (narrate_with_model st c data _ Hkey Hmodel), Hfail.
    reflexivity.
  - intros H st'. unfold st', generate_report_text, App.generate_report_text.
    fold narrate_items. rewrite narrate_items_demo by exact H.
    cbn [fst snd client_reports df api_key model model_name reporting_period].
    split; [reflexivity|]. split; [|repeat split].
    apply Forall2_map_r. intros [k v] _.
    cbn [fst snd set_narrative narrative current prev delta best_channel
         best_channel_roi trend_data]. repeat split.
Qed.

(** C10. The narrative stage changes nothing but the narrative: the keys
    of the report mapping, and in every report the two MetricSets, the
    DeltaSet, the best channel with its ROI and the trend series are the
    same after the stage as before; so is the rest of the state. *)
Theorem narrative_stage_frame (st : State) (w : svc) :
  let st' := fst (generate_report_text st w) in
  Dict.keys (client_reports st') = Dict.keys (client_reports st)
  /\ Forall2 (fun a b => fst a = fst b /\ same_figures (snd a) (snd b))
             (client_reports st) (client_reports st')
  /\ (forall c rep,
        Dict.get c (client_reports st) = Some rep ->
        exists rep',
          Dict.get c (client_reports st') = Some rep'
          /\ current rep' = current rep /\ prev rep' = prev rep
          /\ delta rep' = delta rep
          /\ best_channel rep' = best_channel rep
          /\ best_channel_roi rep' = best_channel_roi rep
          /\ trend_data rep' = trend_data rep)
  /\ (df st' = df st /\ api_key st' = api_key st /\ model st' = model st
      /\ model_name st' = model_name st
      /\ reporting_period st' = reporting_period st).
Proof.
  intros st'. unfold st'. rewrite client_reports_generate.
  pose proof (narrate_items_frame st (client_reports st) w) as F.
  split; [apply narrate_items_keys|]. split; [exact F|]. split.
  - intros c rep Hrep.
    destruct (@get_Forall2 same_figures _ _ F c rep Hrep) as (rep' & Hget & H1 & H2 & H3 & H4 & H5 & H6).
    exists rep'. repeat split; auto.
  - unfold generate_report_text, App.generate_report_text.
    destruct (App.narrate_items _ _ _ _ st (client_reports st) w).
    repeat split.
Qed.

End NarrativeFacts.

Lemma narrative_fallbacks_witness :
  exists data',
    nth_error
      (App.client_reports
         (fst (App.generate_report_text Sample.no_format Sample.no_format
                 Sample.no_format Sample.flaky Sample.two_clients 0%nat)))
      0
    = Some ("Acme", data')
    /\ App.narrative data' = "AI Unavailable."
    /\ App.current data' = App.get_metrics Sample.acme.
Proof.
  destruct (proj1 (proj2 (@narrative_fallbacks Sample.no_format Sample.no_format
                            Sample.no_format nat Sample.flaky
                            Sample.two_clients 0%nat))
              [] "Acme" (Sample.pending (App.get_metrics Sample.acme))
              [("Beta", Sample.pending App.sentinel)] "models/gemini-pro"
              eq_refl eq_refl eq_refl eq_refl)
    as (data' & Hnth & Hnarr & Hcur & _).
  exists data'. split; [exact Hnth|]. split; [exact Hnarr|exact Hcur].
Defined.

Lemma narrative_stage_frame_witness :
  exists rep',
    Dict.get "Beta"
      (App.client_reports
         (fst (App.generate_report_text Sample.no_format Sample.no_format
                 Sample.no_format Sample.flaky Sample.two_clients 0%nat)))
    = Some rep'
    /\ App.current rep' = App.sentinel
    /\ App.narrative rep' = " A good month.".
Proof.
  destruct (proj1 (proj2 (proj2 (@narrative_stage_frame Sample.no_format
                                   Sample.no_format Sample.no_format nat
                                   Sample.flaky Sample.two_clients 0%nat)))
              "Beta" (Sample.pending App.sentinel) eq_refl)
    as (rep' & Hget & Hcur & _).
  exists rep'. split; [exact Hget|]. split; [exact Hcur|].
  vm_compute in Hget. injection Hget as <-. reflexivity.
Defined.

(** ** The aggregator *)

Section Aggregator.

Import Num Cal Pd App Spec.




End Aggregator.

(* ================================================================== *)
(** * Part III. Further properties of the code *)
(* ================================================================== *)

(** ** Discovery and the key dialog *)

Section DiscoveryMore.

Import App.

Lemma priorities_gemini (p : string) :
  In p priorities -> Str.contains "gemini" p = true.
Proof.
  unfold priorities. intros [<-|[<-|[<-|[]]]]; reflexivity.
Qed.

Lemma find_working_model_in (listing : option (list ModelInfo)) (m : string) :
  find_working_model listing = Some m ->
  exists ms,
    listing = Some ms
    /\ In m (available_models ms)
    /\ Str.contains "gemini" m = true.
Proof.
  unfold find_working_model. destruct listing as [ms|]; [|discriminate].
  destruct (find (fun p => mem p (available_models ms)) priorities) as [p|] eqn:E.
  - intros [= <-]. apply find_some in E. destruct E as [Hp Hm].
    exists ms. split; [reflexivity|]. split; [now apply mem_iff|].
    now apply priorities_gemini.
  - intros H. apply find_some in H. destruct H as [Hin Hg].
    exists ms. auto.
Qed.

(** X1. A model returned by the prober is always one of the listed models
    that offer [generateContent], and its name contains "gemini": the
    prober never invents a name and never returns a model that cannot
    generate text. *)
Theorem find_working_model_sound
    (listing : option (list ModelInfo)) (m : string) :
  find_working_model listing = Some m ->
  exists ms i,
    listing = Some ms
    /\ In i ms /\ name i = m
    /\ In "generateContent" (supported_generation_methods i)
    /\ exists a b, m = (a ++ "gemini" ++ b)%string.
Proof.
  intros H. destruct (find_working_model_in listing H) as (ms & -> & Hin & Hg).
  apply in_available_models in Hin. destruct Hin as (i & Hi & Hn & Hs).
  exists ms, i. repeat split; auto. now apply contains_iff.
Qed.

Lemma find_working_model_sound_witness :
  exists i,
    In i [ {| name := "models/embedding-001";
              supported_generation_methods := ["embedContent"] |};
           {| name := "tunedModels/my-gemini";
              supported_generation_methods := ["generateContent"] |} ]
    /\ name i = "tunedModels/my-gemini"
    /\ In "generateContent" (supported_generation_methods i).
Proof.
  destruct (@find_working_model_sound
              (Some [ {| name := "models/embedding-001";
                         supported_generation_methods := ["embedContent"] |};
                      {| name := "tunedModels/my-gemini";
                         supported_generation_methods := ["generateContent"] |} ])
              "tunedModels/my-gemini" eq_refl)
    as (ms & i & Hms & Hi & Hn & Hs & _).
  injection Hms as <-. exists i. auto.
Defined.

(** X2. The prober reports failure exactly when the listing itself fails
    or no listed model offering [generateContent] has "gemini" in its
    name. *)
Theorem find_working_model_none_iff (listing : option (list ModelInfo)) :
  find_working_model listing = None <->
  (listing = None
   \/ exists ms,
        listing = Some ms
        /\ forall i,
             In i ms ->
             In "generateContent" (supported_generation_methods i) ->
             ~ exists a b, name i = (a ++ "gemini" ++ b)%string).
Proof.
  split.
  - destruct listing as [ms|]; [|auto]. intros H. right.
    exists ms. split; [reflexivity|].
    intros i Hi Hs Hg. apply contains_iff in Hg.
    unfold find_working_model in H.
    destruct (find (fun p => mem p (available_models ms)) priorities);
      [discriminate|].
    assert (Hin : In (name i) (available_models ms)).
    { apply in_available_models. eauto. }
    rewrite (proj1 (find_none_iff _ _) H _ Hin) in Hg. discriminate.
  - intros [->|(ms & -> & Hall)]; [reflexivity|].
    assert (Hno : forall m, In m (available_models ms) ->
                            Str.contains "gemini" m = false).
    { intros m Hm. apply in_available_models in Hm.
      destruct Hm as (i & Hi & <- & Hs).
      destruct (Str.contains "gemini" (name i)) eqn:E; [|reflexivity].
      apply contains_iff in E. now apply Hall in E. }
    unfold find_working_model.
    destruct (find (fun p => mem p (available_models ms)) priorities) as [p|] eqn:E.
    + apply find_some in E. destruct E as [Hp Hm]. apply mem_iff in Hm.
      specialize (Hno p Hm). rewrite (priorities_gemini Hp) in Hno.
      discriminate.
    + now apply find_none_iff.
Qed.



End DiscoveryMore.

(** ** More on the analysis *)

Section AnalysisMore.

Import Num Cal Pd App Spec Trace.

Lemma set_fresh (V : Type) (k : string) (v : V) (d : Dict.dict V) :
  ~ In k (Dict.keys d) -> Dict.set k v d = d ++ [(k, v)].
Proof.
  unfold Dict.keys. induction d as [|[k' v'] d IH]; simpl; intros H.
  - reflexivity.
  - destruct (String.eqb k' k) eqn:E.
    + apply String.eqb_eq in E. exfalso. auto.
    + rewrite IH; auto.
Qed.

Lemma keys_set_existing (V : Type) (k : string) (v : V) (d : Dict.dict V) :
  In k (Dict.keys d) -> Dict.keys (Dict.set k v d) = Dict.keys d.
Proof.
  unfold Dict.keys. induction d as [|[k' v'] d IH]; simpl; intros H.
  - contradiction.
  - destruct (String.eqb k' k) eqn:E; simpl; [reflexivity|].
    apply String.eqb_neq in E. destruct H as [H|H]; [congruence|].
    now rewrite IH.
Qed.

Lemma set_same (V : Type) (k : string) (v : V) (d : Dict.dict V) :
  Dict.get k d = Some v -> Dict.set k v d = d.
Proof.
  induction d as [|[k' v'] d IH]; simpl; [discriminate|].
  destruct (String.eqb k' k); [now intros [= ->]|].
  intros H. now rewrite IH.
Qed.

Lemma mem_app_one (c c0 : string) (l : list string) :
  c <> c0 -> mem c (l ++ [c0]) = mem c l.
Proof.
  intros H. unfold mem. rewrite existsb_app. simpl.
  apply String.eqb_neq in H. now rewrite H, !orb_false_r.
Qed.

Lemma forallb_false (A : Type) (f : A -> bool) (l : list A) :
  forallb f l = false -> exists x, In x l /\ f x = false.
Proof.
  induction l as [|x l IH]; simpl; [discriminate|].
  destruct (f x) eqn:E.
  - intros H. destruct (IH H) as (y & Hy & Hf). eauto.
  - intros _. eauto.
Qed.

Section Kernel.

Variable kernel : Series -> Series.
Hypothesis kernel_sorts : sorts kernel.

Lemma analyze_loop_keys (d : DataFrame) (p : Periods) (cs : list string) :
  NoDup cs ->
  forall reports reports',
    analyze_loop kernel d p reports cs = Some reports' ->
    Dict.keys reports' =
    Dict.keys reports
      ++ filter (fun c => has_current p d c && negb (mem c (Dict.keys reports))) cs.
Proof.
  induction 1 as [|c0 cs Hc0 Hnd IH]; intros reports reports'.
  - simpl. intros [= <-]. now rewrite app_nil_r.
  - cbn [analyze_loop filter]. rewrite (analyze_company_eq kernel_sorts).
    unfold has_current at 1.
    destruct (empty (curr_df p c0 d)) eqn:E; cbn [negb andb].
    { intros Hloop. now apply IH in Hloop. }
    destruct (has_channel (curr_df p c0 d)); [|discriminate].
    intros Hloop. apply IH in Hloop. rewrite Hloop. clear Hloop.
    destruct (mem c0 (Dict.keys reports)) eqn:Em; cbn [negb].
    + apply mem_iff in Em. now rewrite keys_set_existing.
    + assert (Hn : ~ In c0 (Dict.keys reports)).
      { intros Hin. apply mem_iff in Hin. congruence. }
      rewrite set_fresh by exact Hn.
      unfold Dict.keys at 1 2. rewrite map_app. cbn [map fst].
      fold (Dict.keys reports). rewrite <- app_assoc. cbn [app].
      do 2 f_equal. apply filter_ext_in. intros c Hc.
      rewrite mem_app_one; [reflexivity|]. intros ->. contradiction.
Qed.

Lemma analyze_loop_fixed (d : DataFrame) (p : Periods) (cs : list string)
    (reports : Dict.dict ClientReport) :
  forallb (fun c => empty (curr_df p c d) || has_channel (curr_df p c d)) cs
    = true ->
  (forall c, In c cs -> empty (curr_df p c d) = false ->
             Dict.get c reports = Some (report_for kernel d p c)) ->
  analyze_loop kernel d p reports cs = Some reports.
Proof.
  induction cs as [|c0 cs IH]; intros Hok H; [reflexivity|].
  cbn [forallb] in Hok. apply andb_true_iff in Hok. destruct Hok as [H0 Hok].
  cbn [analyze_loop]. rewrite (analyze_company_eq kernel_sorts).
  destruct (empty (curr_df p c0 d)) eqn:E.
  - apply IH; [exact Hok|]. intros c Hc. apply H. now right.
  - simpl in H0. rewrite H0.
    rewrite set_same by (apply H; [now left|exact E]).
    apply IH; [exact Hok|]. intros c Hc. apply H. now right.
Qed.

End Kernel.

(** X4. On a frame with a row, [analyze] raises exactly when some client
    has rows in the current window and a blank channel in every one of
    them; without a frame, or on a frame with no row, it raises whatever
    the rows. *)
Theorem analyze_raises_iff (kernel : Series -> Series) (st : State) :
  sorts kernel ->
  (df st = None \/ df st = Some [] -> analyze kernel st = None)
  /\ (forall d D,
        df st = Some d ->
        max_date d = Some D ->
        (analyze kernel st = None <->
         exists c,
           (exists r, In r d
                      /\ selected c (current_month_start (periods D)) D r)
           /\ (forall r, In r d ->
                  selected c (current_month_start (periods D)) D r ->
                  Channel_Used r = None))).
Proof.
  intros Hk. split.
  { unfold analyze. intros [-> | ->]; reflexivity. }
  intros d D Hdf Hmax.
  assert (Hbad : forall c,
            (curr_df (periods D) c d <> []
             /\ has_channel (curr_df (periods D) c d) = false) <->
            ((exists r, In r d
                        /\ selected c (current_month_start (periods D)) D r)
             /\ (forall r, In r d ->
                    selected c (current_month_start (periods D)) D r ->
                    Channel_Used r = None))).
  { intros c. split.
    - intros [Hne Hno]. apply nonempty_iff in Hne. destruct Hne as [r Hr].
      split.
      + exists r. now apply in_curr_df.
      + intros x Hx Hs. destruct (Channel_Used x) as [k|] eqn:E; [|reflexivity].
        assert (Ht : has_channel (curr_df (periods D) c d) = true).
        { apply has_channel_iff. exists x, k. split; [|exact E].
          now apply in_curr_df. }
        congruence.
    - intros [[r Hr] Hno]. split.
      + apply nonempty_iff. exists r. now apply in_curr_df.
      + destruct (has_channel (curr_df (periods D) c d)) eqn:E; [|reflexivity].
        apply has_channel_iff in E. destruct E as (x & k & Hx & Hc).
        apply in_curr_df in Hx. destruct Hx as [Hx Hs].
        rewrite (Hno x Hx Hs) in Hc. discriminate. }
  destruct (channels_known (periods D) d) eqn:Hch.
  - destruct (analyze_spec Hk st Hdf Hmax Hch) as (st' & Han & _).
    rewrite Han. split; [discriminate|].
    intros [c Hc]. apply Hbad in Hc. destruct Hc as [Hne Hno].
    rewrite (proj1 (channels_known_iff (periods D) d) Hch c Hne) in Hno.
    discriminate.
  - rewrite (analyze_raises Hk st Hdf Hmax Hch). split; [intros _|reflexivity].
    destruct (forallb_false _ _ Hch) as (c & _ & Hc).
    exists c. apply Hbad. apply orb_false_iff in Hc. destruct Hc as [He Hc].
    split; [now apply empty_false|exact Hc].
Qed.

Lemma analyze_raises_iff_witness :
  analyze Sample.sort_kernel (load_data Sample.blank_channel init) = None.
Proof.
  apply (proj2 (@analyze_raises_iff Sample.sort_kernel
                  (load_data Sample.blank_channel init) sort_kernel_sorts)
           Sample.blank_channel (Sample.midnight 2024 3 5) eq_refl eq_refl).
  exists "Acme". split.
  - eexists. split; [left; reflexivity|]. repeat split; reflexivity.
  - intros r [<-|[]] _. reflexivity.
Defined.

(** X5. When [analyze] returns it has removed no report: every key present
    before is present after, a company without rows in the current window
    keeps the report it had (a report left by an earlier run stays as it
    is), and the key, the model handle and the frame are untouched. *)
Theorem analyze_keeps_other_reports
    (kernel : Series -> Series) (st : State) (d : DataFrame) (D : Timestamp) :
  sorts kernel ->
  df st = Some d ->
  max_date d = Some D ->
  channels_known (periods D) d = true ->
  exists st',
    analyze kernel st = Some st'
    /\ (forall c, In c (Dict.keys (client_reports st)) ->
                  In c (Dict.keys (client_reports st')))
    /\ (forall c, curr_df (periods D) c d = [] ->
                  Dict.get c (client_reports st') = Dict.get c (client_reports st))
    /\ (NoDup (Dict.keys (client_reports st)) ->
        NoDup (Dict.keys (client_reports st')))
    /\ api_key st' = api_key st /\ model st' = model st /\ df st' = df st.
Proof.
  intros Hk Hdf Hmax Hch.
  destruct (analyze_spec Hk st Hdf Hmax Hch)
    as (st' & Han & Hdf' & Hkey & Hm & _ & Hget & Hnd).
  exists st'. split; [exact Han|]. split; [|split; [|split]].
  - intros c Hc. apply get_some_iff. apply get_some_iff in Hc.
    rewrite Hget. destruct (empty (curr_df (periods D) c d)); eauto.
  - intros c Hc. rewrite Hget, Hc. reflexivity.
  - exact Hnd.
  - repeat split; congruence.
Qed.

Lemma analyze_keeps_other_reports_witness :
  exists st',
    analyze Sample.sort_kernel (load_data Sample.free_month Sample.two_clients)
      = Some st'
    /\ In "Beta" (Dict.keys (client_reports st')).
Proof.
  destruct (@analyze_keeps_other_reports Sample.sort_kernel
              (load_data Sample.free_month Sample.two_clients)
              Sample.free_month (Sample.midnight 2024 3 10)
              sort_kernel_sorts eq_refl eq_refl eq_refl)
    as (st' & Han & Hkeys & _).
  exists st'. split; [exact Han|]. apply Hkeys. simpl. auto.
Defined.

(** X6. When [analyze] returns, the reports it has added come after those
    already present, one for each company that has rows in the current
    window and no report yet, in the order in which the companies first
    appear in the data; on a fresh application the reports are therefore
    in order of first appearance. *)
Theorem analyze_appends_in_order
    (kernel : Series -> Series) (st : State) (d : DataFrame) (D : Timestamp) :
  sorts kernel ->
  df st = Some d ->
  max_date d = Some D ->
  channels_known (periods D) d = true ->
  exists st',
    analyze kernel st = Some st'
    /\ Dict.keys (client_reports st') =
       Dict.keys (client_reports st)
         ++ filter (fun c => has_current (periods D) d c
                             && negb (mem c (Dict.keys (client_reports st))))
                   (companies d)
    /\ (client_reports st = [] ->
        Dict.keys (client_reports st') =
        filter (has_current (periods D) d) (companies d)).
Proof.
  intros Hk Hdf Hmax Hch. unfold analyze. rewrite Hdf, Hmax.
  destruct (analyze_loop_spec Hk d (periods D) (companies d) Hch
              (client_reports st)) as (reports' & Hloop & _).
  rewrite Hloop. eexists. split; [reflexivity|]. cbn [client_reports].
  pose proof (@analyze_loop_keys kernel Hk d (periods D) _ (NoDup_unique _)
                _ _ Hloop) as Hkeys.
  split; [exact Hkeys|].
  intros Hfresh. rewrite Hkeys, Hfresh. cbn [Dict.keys map app].
  apply filter_ext. intros c. now rewrite andb_true_r.
Qed.

Lemma analyze_appends_in_order_witness :
  exists st',
    analyze Sample.sort_kernel (load_data Sample.free_month Sample.two_clients)
      = Some st'
    /\ Dict.keys (client_reports st') = ["Acme"; "Beta"].
Proof.
  destruct (@analyze_appends_in_order Sample.sort_kernel
              (load_data Sample.free_month Sample.two_clients)
              Sample.free_month (Sample.midnight 2024 3 10)
              sort_kernel_sorts eq_refl eq_refl eq_refl)
    as (st' & Han & Hkeys & _).
  exists st'. split; [exact Han|]. rewrite Hkeys. reflexivity.
Defined.

(** X7. When [analyze] returns, running it again on its own result
    changes nothing: it returns again, no report is duplicated and every
    report is recomputed to the same value. *)
Theorem analyze_idempotent
    (kernel : Series -> Series) (st : State) (d : DataFrame) (D : Timestamp) :
  sorts kernel ->
  df st = Some d ->
  max_date d = Some D ->
  channels_known (periods D) d = true ->
  exists st', analyze kernel st = Some st' /\ analyze kernel st' = Some st'.
Proof.
  intros Hk Hdf Hmax Hch. unfold analyze at 1. rewrite Hdf, Hmax.
  destruct (analyze_loop_spec Hk d (periods D) (companies d) Hch
              (client_reports st)) as (reports' & Hloop & Hget & _).
  rewrite Hloop. eexists. split; [reflexivity|].
  unfold analyze. cbn [df client_reports api_key model model_name].
  rewrite Hmax, (analyze_loop_fixed Hk); [reflexivity|exact Hch|].
  intros c Hc Hcur. rewrite Hget.
  apply mem_iff in Hc. now rewrite Hc, Hcur.
Qed.

Lemma analyze_idempotent_witness :
  exists st',
    analyze Sample.sort_kernel (load_data Sample.acme init) = Some st'
    /\ analyze Sample.sort_kernel st' = Some st'.
Proof.
  exact (@analyze_idempotent Sample.sort_kernel (load_data Sample.acme init)
           Sample.acme (Sample.midnight 2024 3 1) sort_kernel_sorts
           eq_refl eq_refl eq_refl).
Defined.

(** X22. Run on a fresh application in which every client with rows in
    the current window has a channel in one of them, [analyze] returns
    with exactly one report per distinct client that has a row in the
    current window, and with none for any other client. *)
Theorem one_report_per_current_client
    (kernel : Series -> Series) (st : State) (d : DataFrame) (D : Timestamp) :
  sorts kernel ->
  df st = Some d ->
  client_reports st = [] ->
  max_date d = Some D ->
  channels_known (periods D) d = true ->
  exists st',
    analyze kernel st = Some st'
    /\ NoDup (Dict.keys (client_reports st'))
    /\ (forall c,
          In c (Dict.keys (client_reports st')) <->
          exists r, In r d
                    /\ selected c (current_month_start (periods D)) D r)
    /\ (forall c,
          (forall r, In r d ->
                     ~ selected c (current_month_start (periods D)) D r) ->
          Dict.get c (client_reports st') = None).
Proof.
  intros Hk Hdf Hfresh Hmax Hch.
  destruct (analyze_spec Hk st Hdf Hmax Hch)
    as (st' & Han & _ & _ & _ & _ & Hget & Hnd).
  rewrite Hfresh in Hget, Hnd.
  assert (Hiff : forall c,
            In c (Dict.keys (client_reports st')) <->
            exists r, In r d
                      /\ selected c (current_month_start (periods D)) D r).
  { intros c. rewrite <- get_some_iff, Hget.
    destruct (empty (curr_df (periods D) c d)) eqn:E.
    - apply empty_true in E. split; [intros [v Hv]; discriminate|].
      intros [r Hr]. exfalso. apply in_curr_df in Hr.
      rewrite E in Hr. exact Hr.
    - apply empty_false, nonempty_iff in E. split; [intros _|eauto].
      destruct E as [r Hr]. exists r. now apply in_curr_df. }
  exists st'. split; [exact Han|]. split; [apply Hnd; constructor|].
  split; [exact Hiff|].
  intros c Hnone. apply get_none_iff. rewrite Hiff.
  intros [r [Hr Hs]]. exact (Hnone r Hr Hs).
Qed.

Lemma one_report_per_current_client_witness :
  exists st',
    analyze Sample.sort_kernel (load_data Sample.free_month init) = Some st'
    /\ Dict.keys (client_reports st') = ["Acme"]
    /\ Dict.get "Gone" (client_reports st') = None.
Proof.
  destruct (@one_report_per_current_client Sample.sort_kernel
              (load_data Sample.free_month init) Sample.free_month
              (Sample.midnight 2024 3 10) sort_kernel_sorts
              eq_refl eq_refl eq_refl eq_refl)
    as (st' & Han & _ & _ & _).
  exists st'. split; [exact Han|].
  vm_compute in Han. injection Han as <-. split; reflexivity.
Defined.

End AnalysisMore.

(** ** The two windows as sets of rows *)

Section WindowsMore.

Import Num Cal Pd App Spec.

Lemma curr_df_in_month (D : Timestamp) (c : string) (d : DataFrame) (r : Row) :
  In r (curr_df (periods D) c d) ->
  (year (Date r) = year D /\ month (Date r) = month D
   /\ 1 <= day (Date r) <= day D)%Z.
Proof.
  unfold curr_df. intros H. apply in_between in H.
  destruct H as (_ & Hlo & Hhi). unfold Cal.le in *.
  apply cal_leb_iff in Hlo, Hhi. simpl in Hlo, Hhi. lia.
Qed.

Lemma prev_month_end_fields (D : Timestamp) :
  valid D ->
  ((month D = 1 /\ year (prev_month_end (periods D)) = year D - 1
    /\ month (prev_month_end (periods D)) = 12)
   \/ (month D <> 1 /\ year (prev_month_end (periods D)) = year D
       /\ month (prev_month_end (periods D)) = month D - 1))%Z
  /\ tod (prev_month_end (periods D)) = tod D.
Proof.
  intros HD. destruct (periods_prev_month HD) as (Hym & _ & Htod).
  split; [|exact Htod].
  destruct (Z.eqb_spec (month D) 1) as [E|E]; injection Hym as Hy Hm; auto.
Qed.

Lemma prev_df_in_month (D : Timestamp) (c : string) (d : DataFrame) (r : Row) :
  valid D ->
  In r (prev_df (periods D) c d) ->
  (if (month D =? 1)%Z
   then year (Date r) = year D - 1 /\ month (Date r) = 12
   else year (Date r) = year D /\ month (Date r) = month D - 1)%Z.
Proof.
  intros HD H. unfold prev_df in H. apply in_between in H.
  destruct H as (_ & Hlo & Hhi). unfold Cal.le in *.
  destruct (periods_prev_month HD) as (Hym & _ & _).
  change (prev_month_start (periods D))
    with (replace_day (prev_month_end (periods D)) 1) in Hlo.
  set (e := prev_month_end (periods D)) in *. clearbody e.
  apply cal_leb_iff in Hlo, Hhi.
  cbn [replace_day year month day tod] in Hlo.
  destruct (month D =? 1)%Z; injection Hym as Hy Hm; lia.
Qed.

(** X8. The two windows are calendar months: every row of a client's
    current selection is dated in the month of the last date, on a day up
    to that of the last date; every row of its previous selection is dated
    in the month before (December of the year before for January); every
    previous row is strictly earlier than every current row, so that no row
    is counted in both. *)
Theorem windows_are_months (D : Timestamp) (c : string) (d : DataFrame) :
  valid D ->
  (forall r, In r (curr_df (periods D) c d) ->
             (year (Date r) = year D /\ month (Date r) = month D
              /\ 1 <= day (Date r) <= day D)%Z)
  /\ (forall r, In r (prev_df (periods D) c d) ->
                (year (Date r), month (Date r)) =
                (if (month D =? 1)%Z then (year D - 1, 12)
                 else (year D, month D - 1))%Z)
  /\ (forall r1 r2,
        In r1 (prev_df (periods D) c d) ->
        In r2 (curr_df (periods D) c d) ->
        Cal.leb (Date r2) (Date r1) = false)
  /\ (forall r, ~ (In r (prev_df (periods D) c d)
                   /\ In r (curr_df (periods D) c d))).
Proof.
  intros HD.
  assert (Hord : forall r1 r2,
            In r1 (prev_df (periods D) c d) ->
            In r2 (curr_df (periods D) c d) ->
            Cal.leb (Date r2) (Date r1) = false).
  { intros r1 r2 H1 H2.
    pose proof (@prev_df_in_month D c d r1 HD H1) as P1.
    pose proof (@curr_df_in_month D c d r2 H2) as P2.
    destruct HD as (Hm & _ & _).
    destruct (Cal.leb (Date r2) (Date r1)) eqn:E; [|reflexivity].
    apply cal_leb_iff in E.
    destruct (Z.eqb_spec (month D) 1); lia. }
  split; [intros r; apply curr_df_in_month|]. split; [|split].
  - intros r Hr. pose proof (@prev_df_in_month D c d r HD Hr) as P.
    destruct (month D =? 1)%Z; destruct P as [-> ->]; reflexivity.
  - exact Hord.
  - intros r [H1 H2]. pose proof (Hord r r H1 H2) as H.
    rewrite cal_leb_refl in H. discriminate.
Qed.

Lemma windows_are_months_witness :
  Forall (fun r => (year (Date r), month (Date r)) = (2023, 12)%Z)
         (prev_df (periods (Sample.midnight 2024 1 15)) "Acme" Sample.january).
Proof.
  assert (HD : valid (Sample.midnight 2024 1 15))
    by (unfold valid; repeat split; vm_compute; (reflexivity || discriminate)).
  apply Forall_forall.
  exact (proj1 (proj2 (@windows_are_months (Sample.midnight 2024 1 15) "Acme"
                         Sample.january HD))).
Defined.

(** X9. When the last date carries no time of day (as with date-only
    data), a client's current selection is exactly its rows dated in the
    month of the last date. *)
Theorem current_window_whole_month
    (d : DataFrame) (D : Timestamp) (c : string) :
  max_date d = Some D ->
  tod D = 0%Z ->
  (forall r, In r d -> (1 <= day (Date r) /\ 0 <= tod (Date r))%Z) ->
  forall r,
    In r (curr_df (periods D) c d) <->
    In r d /\ Company r = Some c
    /\ year (Date r) = year D /\ month (Date r) = month D.
Proof.
  intros Hmax Htod Hrows r. split.
  - intros H. pose proof (@curr_df_in_month D c d r H) as (Hy & Hm & _).
    unfold curr_df in H. apply in_between in H. destruct H as (H & _).
    apply in_of_company in H. tauto.
  - intros (Hin & Hc & Hy & Hm). unfold curr_df. apply in_between.
    split; [now apply in_of_company|]. split.
    + unfold Cal.le. apply cal_leb_iff. simpl.
      destruct (Hrows r Hin). lia.
    + now apply (max_date_spec d).
Qed.

Lemma current_window_whole_month_witness :
  Forall (fun r => In r Sample.free_month /\ Company r = Some "Acme"
                   /\ year (Date r) = 2024%Z /\ month (Date r) = 3%Z)
         (curr_df (periods (Sample.midnight 2024 3 10)) "Acme" Sample.free_month).
Proof.
  apply Forall_forall. intros r.
  apply (@current_window_whole_month Sample.free_month
           (Sample.midnight 2024 3 10) "Acme" eq_refl eq_refl).
  intros x [<-|[<-|[<-|[]]]]; simpl; lia.
Defined.

(** X10. When the last date has a time of day, both windows start and
    end at that time of day, and rows in between are in neither: a row of
    the first day of the month earlier in the day than the last date, and a
    row of the last day of the month before later in the day. *)
Theorem rows_between_windows
    (D : Timestamp) (c : string) (d : DataFrame) (r : Row) :
  valid D ->
  (year (Date r) = year D /\ month (Date r) = month D
   /\ day (Date r) = 1 /\ tod (Date r) < tod D)%Z
  \/ (Cal.same_day (Date r) (prev_month_end (periods D)) = true
      /\ tod D < tod (Date r))%Z ->
  ~ In r (curr_df (periods D) c d) /\ ~ In r (prev_df (periods D) c d).
Proof.
  intros HD Hr.
  destruct (prev_month_end_fields HD) as (Hym & Htod).
  pose proof HD as (Hm & _ & _).
  assert (Hs : forall a b, Cal.same_day a b = true ->
                 year a = year b /\ month a = month b /\ day a = day b).
  { intros a b H. unfold same_day in H.
    rewrite !andb_true_iff, !Z.eqb_eq in H. tauto. }
  split; intros H.
  - unfold curr_df in H. apply in_between in H. destruct H as (_ & Hlo & _).
    unfold Cal.le in Hlo. apply cal_leb_iff in Hlo. simpl in Hlo.
    destruct Hr as [Hr|[Hd Ht]]; [lia|]. apply Hs in Hd. lia.
  - unfold prev_df in H. apply in_between in H. destruct H as (_ & _ & Hhi).
    unfold Cal.le in Hhi. apply cal_leb_iff in Hhi.
    destruct Hr as [Hr|[Hd Ht]]; [lia|]. apply Hs in Hd. lia.
Qed.

Lemma rows_between_windows_witness :
  let D := {| year := 2024; month := 3; day := 15; tod := 52200000000000 |} in
  let r := {| Date := {| year := 2024; month := 3; day := 1;
                         tod := 32400000000000 |};
              Company := Some "Acme"; Channel_Used := Some "Search";
              Acquisition_Cost := Sample.q 10 1; ROI := Sample.q 2 1;
              Conversion_Rate := Sample.q 1 10 |} in
  ~ In r (curr_df (periods D) "Acme" [r])
  /\ ~ In r (prev_df (periods D) "Acme" [r]).
Proof.
  intros D r. apply (@rows_between_windows D "Acme" [r] r).
  - unfold valid; repeat split; vm_compute; (reflexivity || discriminate).
  - left. repeat split; vm_compute; reflexivity.
Defined.

End WindowsMore.

(** ** The daily trend series *)

Section TrendMore.

Import Num Cal Pd App Spec.

Lemma fold_min_spec (t : DataFrame) (m0 : Timestamp) :
  let m := fold_left (fun m x => if Cal.leb (Date x) m then Date x else m) t m0 in
  (m = m0 \/ In m (map Date t))
  /\ Cal.leb m m0 = true
  /\ forall r, In r t -> Cal.leb m (Date r) = true.
Proof.
  revert m0. induction t as [|x t IH]; intros m0; simpl.
  - repeat split; auto using cal_leb_refl.
  - set (m1 := if Cal.leb (Date x) m0 then Date x else m0).
    destruct (IH m1) as (Hin & Hle & Hall).
    assert (H0 : Cal.leb m1 m0 = true).
    { unfold m1. destruct (Cal.leb (Date x) m0) eqn:E; auto using cal_leb_refl. }
    assert (Hx : Cal.leb m1 (Date x) = true).
    { unfold m1. destruct (Cal.leb (Date x) m0) eqn:E;
        auto using cal_leb_refl, cal_leb_false. }
    repeat split.
    + destruct Hin as [Hin|Hin]; [|now auto].
      rewrite Hin. unfold m1. destruct (Cal.leb (Date x) m0); auto.
    + eapply cal_leb_trans; eassumption.
    + intros r [<-|Hr]; [|now auto]. eapply cal_leb_trans; eassumption.
Qed.

Lemma min_date_spec (d : DataFrame) (lo : Timestamp) :
  min_date d = Some lo ->
  In lo (map Date d) /\ forall r, In r d -> Cal.le lo (Date r).
Proof.
  destruct d as [|r0 t]; simpl; [discriminate|].
  intros [= <-].
  destruct (fold_min_spec t (Date r0)) as (Hin & Hle & Hall).
  split.
  - destruct Hin as [->|Hin]; auto.
  - intros r [<-|Hr]; [exact Hle|now apply Hall].
Qed.

(** X11. The trend series of a client's current selection has one bin per
    calendar day from the first to the last day on which the client has a
    row, in order and without gap, each dated at midnight; the bin of a day
    holds the mean ROI of the rows of that day, which is undefined for a
    day without rows. *)
Theorem trend_series_days (D : Timestamp) (c : string) (d : DataFrame) :
  let cd := curr_df (periods D) c d in
  cd <> [] ->
  exists lo hi,
    min_date cd = Some lo /\ max_date cd = Some hi
    /\ (day lo <= day hi)%Z
    /\ map fst (resample_D_mean_ROI cd) =
       map (fun i => {| year := year D; month := month D;
                        day := day lo + Z.of_nat i; tod := 0 |})
           (seq 0 (Z.to_nat (day hi - day lo + 1)))
    /\ (forall r, In r cd ->
          In ({| year := year D; month := month D;
                 day := day (Date r); tod := 0 |},
              mean (map ROI (filter (fun x => Cal.same_day (Date x) (Date r)) cd)))
             (resample_D_mean_ROI cd))
    /\ (forall b, In b (resample_D_mean_ROI cd) ->
          (forall r, In r cd -> day (Date r) <> day (fst b)) ->
          snd b = NaN).
Proof.
  intros cd Hne.
  destruct cd as [|r0 t] eqn:Ecd; [congruence|]. rewrite <- Ecd in *.
  assert (Hmonth : forall r, In r cd ->
            (year (Date r) = year D /\ month (Date r) = month D)%Z).
  { intros r Hr. unfold cd in Hr. apply curr_df_in_month in Hr. tauto. }
  destruct (min_date cd) as [lo|] eqn:Elo; [|rewrite Ecd in Elo; discriminate].
  destruct (max_date cd) as [hi|] eqn:Ehi; [|rewrite Ecd in Ehi; discriminate].
  destruct (min_date_spec cd Elo) as (Hlo_in & Hlo).
  destruct (max_date_spec cd Ehi) as (Hhi_in & Hhi).
  apply in_map_iff in Hlo_in. destruct Hlo_in as (rl & Hrl & Hrl_in).
  apply in_map_iff in Hhi_in. destruct Hhi_in as (rh & Hrh & Hrh_in).
  destruct (Hmonth rl Hrl_in) as (Hyl & Hml). rewrite Hrl in Hyl, Hml.
  destruct (Hmonth rh Hrh_in) as (Hyh & Hmh). rewrite Hrh in Hyh, Hmh.
  assert (Hdays : forall r, In r cd -> (day lo <= day (Date r) <= day hi)%Z).
  { intros r Hr. destruct (Hmonth r Hr) as (Hy & Hm).
    pose proof (Hlo r Hr) as H1. pose proof (Hhi r Hr) as H2.
    unfold Cal.le in H1, H2. apply cal_leb_iff in H1, H2. lia. }
  assert (Hsame : forall r x, In r cd -> In x cd ->
            Cal.same_day (Date x) (Date r)
            = ((year (Date x) =? year D) && (month (Date x) =? month D)
               && (day (Date x) =? day (Date r)))%Z).
  { intros r x Hr Hx. unfold same_day.
    now destruct (Hmonth r Hr) as (-> & ->). }
  exists lo, hi. split; [reflexivity|]. split; [reflexivity|].
  split; [specialize (Hdays rl Hrl_in); rewrite Hrl in Hdays; lia|].
  unfold resample_D_mean_ROI. rewrite Elo, Ehi. split; [|split].
  - rewrite map_map. cbn [fst]. rewrite Hyl, Hml. reflexivity.
  - intros r Hr. apply in_map_iff.
    exists (Z.to_nat (day (Date r) - day lo)).
    pose proof (Hdays r Hr) as Hd. split.
    + rewrite Z2Nat.id by lia.
      replace (day lo + (day (Date r) - day lo))%Z with (day (Date r)) by lia.
      rewrite Hyl, Hml. do 3 f_equal. unfold on_day.
      apply filter_ext_in. intros x Hx. symmetry. now apply Hsame.
    + apply in_seq. lia.
  - intros b Hb Hnone. apply in_map_iff in Hb. destruct Hb as (i & <- & _).
    cbn [fst snd day] in *. unfold on_day.
    replace (filter _ cd) with (@nil Row); [reflexivity|].
    symmetry.
    assert (F : Forall (fun r => day (Date r) <> (day lo + Z.of_nat i)%Z) cd)
      by (apply Forall_forall; exact Hnone).
    clear -F. induction F as [|x l Hx _ IH]; simpl; [reflexivity|].
    destruct (Z.eqb_spec (day (Date x)) (day lo + Z.of_nat i)) as [E|E];
      [contradiction|].
    rewrite andb_false_r. exact IH.
Qed.

Lemma trend_series_days_witness :
  exists lo hi,
    min_date (curr_df (periods (Sample.midnight 2024 3 3)) "Acme" Sample.half_roi)
    = Some lo
    /\ max_date (curr_df (periods (Sample.midnight 2024 3 3)) "Acme"
                   Sample.half_roi) = Some hi
    /\ (day lo, day hi) = (2, 3)%Z.
Proof.
  destruct (@trend_series_days (Sample.midnight 2024 3 3) "Acme" Sample.half_roi)
    as (lo & hi & Hlo & Hhi & _).
  - discriminate.
  - exists lo, hi. split; [exact Hlo|]. split; [exact Hhi|].
    vm_compute in Hlo, Hhi. injection Hlo as <-. injection Hhi as <-.
    reflexivity.
Defined.

End TrendMore.

(** ** The percentage change *)

Section DeltaMore.

Import Num Cal Pd App Spec.

Lemma Q_inv_sign (p q : Q) :
  (p * q == 1 -> 0 < p /\ 0 < q \/ p < 0 /\ q < 0)%Q.
Proof.
  intros H.
  destruct (Q_dec p 0) as [[Hp|Hp]|Hp], (Q_dec q 0) as [[Hq|Hq]|Hq]; auto;
    exfalso; try (rewrite Hp in H; lra); try (rewrite Hq in H; lra).
  - assert (p * q < 0)%Q
      by (setoid_replace (p * q)%Q with (- ((-p) * q))%Q by ring;
          assert (0 < (-p) * q)%Q by (apply Qmult_lt_0_compat; lra); lra).
    lra.
  - assert (p * q < 0)%Q
      by (setoid_replace (p * q)%Q with (- (p * (-q)))%Q by ring;
          assert (0 < p * (-q))%Q by (apply Qmult_lt_0_compat; lra); lra).
    lra.
Qed.

Lemma Q_prod_sign (a b : Q) : (0 < b -> (0 < a * b <-> 0 < a))%Q.
Proof.
  intros Hb. split; intros H.
  - destruct (Qlt_le_dec 0 a) as [Ha|Ha]; [exact Ha|exfalso].
    assert (0 <= (-a) * b)%Q by (apply Qmult_le_0_compat; lra).
    setoid_replace (a * b)%Q with (- ((-a) * b))%Q in H by ring. lra.
  - apply Qmult_lt_0_compat; assumption.
Qed.

Lemma Q_change_sign (c p q : Q) :
  (p * q == 1 ->
   (0 < (c + - p) * q * 100 <-> (0 < p /\ p < c) \/ (p < 0 /\ c < p)))%Q.
Proof.
  intros H. rewrite Q_prod_sign by lra.
  destruct (@Q_inv_sign _ _ H) as [[Hp Hq]|[Hp Hq]].
  - rewrite Q_prod_sign by exact Hq. split; [intros; left; split; lra|].
    intros [[_ Hc]|[Hp' _]]; lra.
  - setoid_replace ((c + - p) * q)%Q with ((p + - c) * (- q))%Q by ring.
    rewrite Q_prod_sign by lra. split; [intros; right; split; lra|].
    intros [[Hp' _]|[_ Hc]]; lra.
Qed.

Lemma sgn_nonzero (p : Qc) : p <> Q2Qc 0 -> sgn p <> Eq.
Proof.
  intros Hp H. apply Hp. unfold sgn in H. now apply Qceq_alt.
Qed.

Lemma pct_Fin (c p : Qc) :
  p <> Q2Qc 0 ->
  pct (Fin c) (Fin p) =
  Fin (Qcmult (Qcdiv (Qcplus c (Qcopp p)) p) (Q2Qc (inject_Z 100))).
Proof.
  intros Hp. unfold pct, sub, div, mul, opp, add, hundred, of_Z.
  pose proof (sgn_nonzero Hp). now destruct (sgn p).
Qed.

(** X12. A metric that did not change has a delta of exactly zero,
    provided it is finite and not zero; for a metric that is zero in both
    periods the delta is undefined (0/0). *)
Theorem delta_of_unchanged_metric (c : Qc) :
  (c <> Q2Qc 0 -> pct (Fin c) (Fin c) = Fin (Q2Qc 0))
  /\ pct (Fin (Q2Qc 0)) (Fin (Q2Qc 0)) = NaN.
Proof.
  split; [|reflexivity].
  intros Hc. rewrite (pct_Fin c Hc). f_equal.
  change (Q2Qc 0) with 0%Qc. unfold Qcdiv. rewrite Qcplus_opp_r. ring.
Qed.

Lemma delta_of_unchanged_metric_witness :
  pct (Sample.q 5 2) (Sample.q 5 2) = Fin (Q2Qc 0).
Proof.
  apply (proj1 (delta_of_unchanged_metric (Q2Qc (5 # 2)))).
  intros H. apply (f_equal this) in H. discriminate H.
Defined.

(** X13. The direction reported for a metric: for finite values and a
    previous value that is not zero, the delta is positive (arrows "UP" and
    "INCREASED") exactly when the current value exceeds a positive previous
    value or lies below a negative one; against a negative previous value
    the direction is the reverse of the change. *)
Theorem delta_direction (c p : Qc) :
  p <> Q2Qc 0 ->
  (gtb (pct (Fin c) (Fin p)) zero = true <->
   (Q2Qc 0 < p /\ p < c)%Qc \/ (p < Q2Qc 0 /\ c < p)%Qc).
Proof.
  intros Hp. rewrite (pct_Fin c Hp). unfold gtb, zero, of_Z. cbn [cmp].
  assert (Hinv : (p * / p == 1)%Q).
  { apply Qmult_inv_r. intros H. apply Hp. apply Qc_is_canon.
    rewrite H. reflexivity. }
  pose proof (@Q_change_sign c _ _ Hinv) as HQ.
  assert (Hgt : Qccompare
                  (Qcmult (Qcdiv (Qcplus c (Qcopp p)) p) (Q2Qc (inject_Z 100)))
                  (Q2Qc (inject_Z 0)) = Gt
                <-> (0 < (c + - p) * / p * 100)%Q).
  { rewrite <- Qcgt_alt. unfold Qclt, Qcmult, Qcdiv, Qcmult, Qcinv, Qcplus, Qcopp.
    cbn [this Q2Qc]. rewrite !Qred_correct. reflexivity. }
  unfold Qclt. cbn [this Q2Qc]. change (Qred 0) with 0%Q.
  rewrite <- HQ, <- Hgt.
  destruct (Qccompare _ _); split; intros; congruence.
Qed.

Lemma delta_direction_witness :
  gtb (pct (Sample.q (-3) 1) (Sample.q (-2) 1)) zero = true.
Proof.
  apply (proj2 (@delta_direction (Q2Qc (-3 # 1)) (Q2Qc (-2 # 1))
                  ltac:(intros H; apply (f_equal this) in H; discriminate H))).
  right. split; reflexivity.
Defined.

(** X14. For a client without rows in the previous window the deltas are
    taken against the sentinel 1: in each dimension the delta stored is the
    current metric minus 1, times 100 (dividing by 1 changes nothing), so
    that it grows with the metric itself rather than with a change. *)
Theorem delta_without_previous
    (kernel : Series -> Series)
    (st : State) (d : DataFrame) (D : Timestamp) (c : string) :
  sorts kernel ->
  df st = Some d ->
  max_date d = Some D ->
  channels_known (periods D) d = true ->
  (exists r, In r d /\ selected c (current_month_start (periods D)) D r) ->
  (forall r, In r d -> ~ selected c (prev_month_start (periods D))
                                  (prev_month_end (periods D)) r) ->
  exists st' rep,
    analyze kernel st = Some st'
    /\ Dict.get c (client_reports st') = Some rep
    /\ current rep = get_metrics (curr_df (periods D) c d)
    /\ delta rep =
       {| spend_pct := mul (sub (spend (current rep)) (of_Z 1)) (of_Z 100);
          roi_pct := mul (sub (roi (current rep)) (of_Z 1)) (of_Z 100);
          conv_pct := mul (sub (conv (current rep)) (of_Z 1)) (of_Z 100) |}.
Proof.
  intros Hk Hdf Hmax Hch Hcur Hnone.
  destruct (analyze_spec Hk st Hdf Hmax Hch)
    as (st' & Han & _ & _ & _ & _ & Hget & _).
  assert (Hne : curr_df (periods D) c d <> []).
  { apply nonempty_iff. destruct Hcur as [r Hr]. exists r.
    now apply in_curr_df. }
  assert (Hprev : prev_df (periods D) c d = []).
  { destruct (prev_df (periods D) c d) as [|r t] eqn:E; [reflexivity|].
    exfalso. assert (Hr : In r (prev_df (periods D) c d)) by (rewrite E; now left).
    apply in_prev_df in Hr. destruct Hr as [Hin Hs]. exact (Hnone r Hin Hs). }
  exists st', (report_for kernel d (periods D) c).
  split; [exact Han|]. split.
  - rewrite Hget. apply empty_false in Hne. now rewrite Hne.
  - unfold report_for. cbn [current delta]. rewrite Hprev. cbn [empty].
    split; [reflexivity|].
    unfold get_delta, sentinel, pct. cbn [spend roi conv].
    now rewrite !num_div_one.
Qed.

Lemma delta_without_previous_witness :
  exists st' rep,
    analyze Sample.sort_kernel (load_data Sample.acme init) = Some st'
    /\ Dict.get "Acme" (client_reports st') = Some rep
    /\ spend_pct (delta rep) =
       mul (sub (spend (get_metrics Sample.acme)) one) hundred.
Proof.
  destruct (@delta_without_previous Sample.sort_kernel
              (load_data Sample.acme init) Sample.acme
              (Sample.midnight 2024 3 1) "Acme" sort_kernel_sorts
              eq_refl eq_refl eq_refl)
    as (st' & rep & Han & Hget & Hcur & Hd).
  - eexists. split; [left; reflexivity|]. repeat split; reflexivity.
  - intros r [<-|[<-|[]]] (_ & _ & H); vm_compute in H; discriminate.
  - exists st', rep. split; [exact Han|]. split; [exact Hget|].
    rewrite Hd. cbn [spend_pct]. rewrite Hcur. reflexivity.
Defined.

End DeltaMore.

(** ** Text replacement and the cleaning of narratives *)

Section CleanMore.

Import App Trace.

Lemma replace_absent (old new s : string) :
  Str.contains old s = false -> Str.replace old new s = s.
Proof.
  unfold Str.replace. induction s as [|c s IH]; [reflexivity|].
  cbn [Str.contains Str.replace_from]. intros H.
  apply orb_false_iff in H. destruct H as [H1 H2].
  rewrite H1, (IH H2). reflexivity.
Qed.

Lemma replace_from_length (old : string) (s : string) :
  forall skip,
    (String.length (Str.replace_from old "" skip s) <= String.length s)%nat.
Proof.
  induction s as [|c s IH]; intros skip; [reflexivity|].
  cbn [Str.replace_from]. destruct skip as [|k].
  - destruct (Str.starts_with old (String c s)).
    + simpl. specialize (IH (String.length old - 1)%nat). lia.
    + simpl. specialize (IH 0%nat). lia.
  - simpl. specialize (IH k). lia.
Qed.

(** Removing the doubled character [x]. *)
Lemma unpair_pair (x : ascii) (t : string) :
  Str.replace (String x (String x "")) "" (String x (String x t)) =
  Str.replace (String x (String x "")) "" t.
Proof.
  unfold Str.replace. cbn. rewrite !Ascii.eqb_refl. reflexivity.
Qed.

Lemma unpair_other (x c : ascii) (s : string) :
  Str.starts_with (String x (String x "")) (String c s) = false ->
  Str.replace (String x (String x "")) "" (String c s) =
  String c (Str.replace (String x (String x "")) "" s).
Proof.
  unfold Str.replace. intros H. cbn [Str.replace_from]. now rewrite H.
Qed.

Lemma starts_pair (x c : ascii) (s : string) :
  Str.starts_with (String x (String x "")) (String c s) =
  Ascii.eqb x c && match s with String c' _ => Ascii.eqb x c' | _ => false end.
Proof.
  simpl. destruct s as [|c' s']; [reflexivity|]. simpl.
  now rewrite andb_true_r.
Qed.

Lemma unpair_head (x : ascii) (s : string) :
  match s with String c' _ => Ascii.eqb x c' | _ => false end = false ->
  match Str.replace (String x (String x "")) "" s with
  | String c' _ => Ascii.eqb x c'
  | _ => false
  end = false.
Proof.
  destruct s as [|c s]; [reflexivity|]. intros H.
  rewrite unpair_other; [exact H|]. rewrite starts_pair, H. reflexivity.
Qed.

Lemma unpair_no_pair (x : ascii) (n : nat) :
  forall s, (String.length s <= n)%nat ->
    Str.contains (String x (String x ""))
      (Str.replace (String x (String x "")) "" s) = false.
Proof.
  induction n as [|n IH]; intros s Hn.
  - destruct s; [reflexivity|simpl in Hn; lia].
  - destruct s as [|c s]; [reflexivity|]. simpl in Hn.
    destruct (Str.starts_with (String x (String x "")) (String c s)) eqn:E.
    + rewrite starts_pair in E. apply andb_true_iff in E. destruct E as [E1 E2].
      destruct s as [|c' t]; [discriminate|].
      apply Ascii.eqb_eq in E1, E2. subst c c'. rewrite unpair_pair.
      apply IH. simpl in Hn. lia.
    + rewrite unpair_other by exact E. cbn [Str.contains].
      rewrite IH by lia. rewrite orb_false_r, starts_pair.
      rewrite starts_pair in E.
      destruct (Ascii.eqb x c); [|reflexivity]. cbn [andb] in *.
      now apply unpair_head.
Qed.

(** X15. Cleaning a narrative never lengthens it, leaves a text without
    "**" and "##" as it is, and leaves no "##" behind; it can however
    leave a "**" behind, when removing a "##" brings two asterisks
    together. *)
Theorem clean_narrative (text : string) :
  Str.contains "##" (clean text) = false
  /\ (String.length (clean text) <= String.length text)%nat
  /\ (Str.contains "**" text = false -> Str.contains "##" text = false ->
      clean text = text)
  /\ exists t, Str.contains "**" (clean t) = true.
Proof.
  unfold clean. split; [|split; [|split]].
  - apply (@unpair_no_pair "#"%char
             (String.length (Str.replace "**" "" text))).
    apply Nat.le_refl.
  - unfold Str.replace.
    pose proof (replace_from_length "##" (Str.replace_from "**" "" 0 text)
                  0%nat).
    pose proof (replace_from_length "**" text 0%nat). lia.
  - intros H1 H2. rewrite (@replace_absent "**" "" text H1).
    apply (@replace_absent "##" "" text H2).
  - exists "*##*". reflexivity.
Qed.

Lemma clean_narrative_witness :
  clean "Spend rose by 12%." = "Spend rose by 12%.".
Proof.
  apply (proj1 (proj2 (proj2 (clean_narrative "Spend rose by 12%."))));
    reflexivity.
Defined.

End CleanMore.

(** ** The narrative stage, call by call *)

Section NarrativeMore.

Import Num Cal Pd App Spec Trace.

Variable fmt_comma_0f fmt_1f fmt_2f : num -> string.
Variable svc : Type.
Variable generate_content : string -> string -> svc -> option string * svc.

Let narrate := narrate fmt_comma_0f fmt_1f fmt_2f generate_content.
Let narrate_items := narrate_items fmt_comma_0f fmt_1f fmt_2f generate_content.
Let generate_report_text :=
  generate_report_text fmt_comma_0f fmt_1f fmt_2f generate_content.
Let build_prompt := build_prompt fmt_comma_0f fmt_1f fmt_2f.

(** X16. With a key and a model, the narrative stage calls the service
    exactly once per report, in the order of the reports, each call made
    with the prompt built from that report and in the state the service
    was left in by the call before; the narrative stored in a report is
    the cleaned answer to the call made for that report, or
    "AI Unavailable." when that call raised; no report is added or
    dropped. *)
Theorem narrative_stage_calls (st : State) (m : string) (w : svc) :
  truthy (api_key st) = true ->
  model st = Some m ->
  snd (generate_report_text st w) =
    service_after generate_content (build_prompt (reporting_period st)) m
      (client_reports st) w
  /\ map (fun kv => narrative (snd kv))
         (client_reports (fst (generate_report_text st w))) =
     map narrative_of
         (answers generate_content (build_prompt (reporting_period st)) m
            (client_reports st) w)
  /\ Dict.keys (client_reports (fst (generate_report_text st w))) =
     Dict.keys (client_reports st).
Proof.
  intros Hk Hm.
  destruct (@narrate_items_with_model fmt_comma_0f fmt_1f fmt_2f svc
              generate_content st m (client_reports st) Hk Hm w) as [H1 H2].
  pose proof (@narrate_items_keys fmt_comma_0f fmt_1f fmt_2f svc
                generate_content st (client_reports st) w) as H3.
  unfold generate_report_text, App.generate_report_text.
  destruct (App.narrate_items fmt_comma_0f fmt_1f fmt_2f generate_content st
              (client_reports st) w) as [reports w'].
  cbn [fst snd client_reports] in *. auto.
Qed.

End NarrativeMore.

Lemma narrative_stage_calls_witness :
  snd (App.generate_report_text Sample.no_format Sample.no_format
         Sample.no_format Sample.flaky Sample.two_clients 0%nat) = 2%nat
  /\ map (fun kv => App.narrative (snd kv))
         (App.client_reports
            (fst (App.generate_report_text Sample.no_format Sample.no_format
                    Sample.no_format Sample.flaky Sample.two_clients 0%nat)))
     = ["AI Unavailable."; " A good month."].
Proof.
  destruct (@narrative_stage_calls Sample.no_format Sample.no_format
              Sample.no_format nat Sample.flaky Sample.two_clients
              "models/gemini-pro" 0%nat eq_refl eq_refl) as (H1 & H2 & _).
  split; [rewrite H1|rewrite H2]; reflexivity.
Defined.

(** ** Ingestion *)

Section IngestMore.

Import Ingest Trace.

Lemma chars_append (a b : string) : chars (a ++ b)%string = chars a ++ chars b.
Proof.
  unfold chars. induction a as [|c a IH]; simpl; [reflexivity|].
  now rewrite IH.
Qed.

Lemma chars_inj (a b : string) : chars a = chars b -> a = b.
Proof.
  unfold chars. intros H.
  rewrite <- (string_of_list_ascii_of_string a),
          <- (string_of_list_ascii_of_string b).
  now rewrite H.
Qed.

Lemma chars_sub_class_empty (cls : list ascii) (s : string) :
  chars (sub_class cls "" s) =
  filter (fun c => negb (existsb (Ascii.eqb c) cls)) (chars s).
Proof.
  unfold chars. induction s as [|c s IH]; simpl; [reflexivity|].
  destruct (existsb (Ascii.eqb c) cls); simpl; now rewrite IH.
Qed.

(** X17. Stripping a cost cell deletes every "$" and every "," and
    nothing else: the other characters are kept in their order; a cell
    without these two characters is unchanged; stripping twice is the same
    as stripping once. *)
Theorem strip_currency_only_symbols (cell : string) :
  chars (strip_currency cell) =
    filter (fun c => negb (Ascii.eqb c "$" || Ascii.eqb c ",")) (chars cell)
  /\ ~ In "$"%char (chars (strip_currency cell))
  /\ ~ In ","%char (chars (strip_currency cell))
  /\ (~ In "$"%char (chars cell) -> ~ In ","%char (chars cell) ->
      strip_currency cell = cell)
  /\ strip_currency (strip_currency cell) = strip_currency cell.
Proof.
  assert (Hc : forall s,
            chars (strip_currency s) =
            filter (fun c => negb (Ascii.eqb c "$" || Ascii.eqb c ","))
                   (chars s)).
  { intros s. unfold strip_currency. rewrite chars_sub_class_empty.
    apply filter_ext. intros c. simpl. now rewrite orb_false_r. }
  split; [apply Hc|]. split; [|split; [|split]].
  - rewrite Hc. intros H. apply filter_In in H. destruct H as [_ H].
    discriminate.
  - rewrite Hc. intros H. apply filter_In in H. destruct H as [_ H].
    discriminate.
  - intros H1 H2. apply chars_inj. rewrite Hc.
    induction (chars cell) as [|c l IH]; [reflexivity|]. simpl.
    destruct (Ascii.eqb_spec c "$") as [->|_]; [exfalso; apply H1; now left|].
    destruct (Ascii.eqb_spec c ",") as [->|_]; [exfalso; apply H2; now left|].
    simpl. f_equal. apply IH; intros H; [apply H1|apply H2]; now right.
  - apply chars_inj. rewrite !Hc.
    induction (chars cell) as [|c l IH]; [reflexivity|]. simpl.
    destruct (negb (Ascii.eqb c "$" || Ascii.eqb c ",")) eqn:E; [|exact IH].
    simpl. rewrite E. now f_equal.
Qed.

Lemma strip_currency_only_symbols_witness : strip_currency "1200.50" = "1200.50".
Proof.
  apply (proj1 (proj2 (proj2 (proj2 (strip_currency_only_symbols "1200.50"))))).
  - simpl. intros H. repeat (destruct H as [H|H]; [discriminate H|]). exact H.
  - simpl. intros H. repeat (destruct H as [H|H]; [discriminate H|]). exact H.
Defined.

End IngestMore.

(** ** Rendering *)

Section RenderMore.

Import Num Cal Pd App Render Trace.

Variable fmt_comma_0f fmt_1f fmt_2f : num -> string.
Variable upper : string -> string.
Variable parses : string -> bool.

Let page := page fmt_comma_0f fmt_1f fmt_2f upper parses.
Let story_of := story_of fmt_comma_0f fmt_1f fmt_2f upper parses.
Let save_pdf := save_pdf fmt_comma_0f fmt_1f fmt_2f upper parses.

Lemma chars_replace_char (a b : ascii) (s : string) :
  chars (Str.replace (String a "") (String b "") s) =
  map (fun c => if Ascii.eqb a c then b else c) (chars s).
Proof.
  unfold Str.replace, chars. induction s as [|c s IH]; [reflexivity|].
  cbn [Str.replace_from Str.starts_with list_ascii_of_string map].
  rewrite andb_true_r. destruct (Ascii.eqb a c); simpl; now rewrite IH.
Qed.

(** X18. The file name proposed by the save dialog is "Client_Reports_",
    the reporting period with every space turned into an underscore, and
    ".pdf": it has the length of the period plus 19 and never contains a
    space. *)
Theorem initialfile_no_space (period : string) :
  chars (initialfile period) =
    chars "Client_Reports_"
    ++ map (fun c => if Ascii.eqb " " c then "_"%char else c) (chars period)
    ++ chars ".pdf"
  /\ String.length (initialfile period) = (String.length period + 19)%nat
  /\ ~ In " "%char (chars (initialfile period)).
Proof.
  assert (H : chars (initialfile period) =
              chars "Client_Reports_"
              ++ map (fun c => if Ascii.eqb " " c then "_"%char else c)
                     (chars period)
              ++ chars ".pdf").
  { unfold initialfile. now rewrite !chars_append, chars_replace_char. }
  split; [exact H|]. split.
  - assert (L : forall s, String.length s = List.length (chars s)).
    { unfold chars. induction s; simpl; congruence. }
    rewrite (L (initialfile period)), H, !length_app, length_map, <- (L period).
    simpl. lia.
  - rewrite H. intros Hin. apply in_app_or in Hin. destruct Hin as [Hin|Hin].
    + simpl in Hin. repeat (destruct Hin as [Hin|Hin]; [discriminate Hin|]).
      exact Hin.
    + apply in_app_or in Hin. destruct Hin as [Hin|Hin].
      * apply in_map_iff in Hin. destruct Hin as (c & Hc & _).
        destruct (Ascii.eqb_spec " " c); [discriminate|congruence].
      * simpl in Hin. repeat (destruct Hin as [Hin|Hin]; [discriminate Hin|]).
        exact Hin.
Qed.

(** A story is built exactly when every paragraph text parses. *)
Lemma story_of_none_iff (period : string) (items : Dict.dict ClientReport) :
  story_of period items = None <->
  forallb parses (document_texts upper period items) = false.
Proof.
  unfold story_of, document_texts.
  induction items as [|[c data] rest IH]; cbn [Render.story_of flat_map].
  - split; discriminate.
  - rewrite forallb_app. cbn [fst snd]. unfold Render.page.
    destruct (forallb parses (page_texts upper period c data)); cbn [andb].
    + destruct (Render.story_of _ _ _ _ _ period rest) as [story|].
      * split; [discriminate|]. intros H. apply IH in H. discriminate.
      * split; [intros _; now apply IH|reflexivity].
    + split; reflexivity.
Qed.

Lemma story_of_shape (period : string) (items : Dict.dict ClientReport) :
  forall story,
    story_of period items = Some story ->
    List.length story = (11 * List.length items)%nat
    /\ List.length (filter is_page_break story) = List.length items
    /\ texts_in title_style story = map (fun kv => upper (fst kv)) items
    /\ texts_in sub_style story =
       flat_map (fun _ => ["MONTHLY PERFORMANCE REPORT";
                           ("Period: " ++ period)%string]) items
    /\ texts_in body_style story = map (fun kv => narrative (snd kv)) items.
Proof.
  unfold story_of.
  induction items as [|[c data] rest IH]; cbn [Render.story_of]; intros story.
  - intros [= <-]. repeat split.
  - unfold Render.page.
    destruct (forallb parses (page_texts upper period c data)); [|discriminate].
    destruct (Render.story_of _ _ _ _ _ period rest) as [tail|];
      [|discriminate].
    destruct (IH tail eq_refl) as (IH1 & IH2 & IH3 & IH4 & IH5).
    intros [= <-].
    simpl. rewrite IH1, IH2, IH3, IH4, IH5. repeat split; lia.
Qed.

(** X19. [save_pdf] builds nothing when the save dialog is cancelled.
    Otherwise it raises, before anything is written, as soon as the
    mark-up of one paragraph text (a title, an upper-cased client name, the
    period line or a narrative) is not accepted; when all are accepted, the
    story given to the document builder has eleven flowables per report and
    exactly one page break per report, its title paragraphs are the
    upper-cased client names and its body paragraphs the narratives, both
    in the order of the reports. *)
Theorem save_pdf_story (st : State) (save_path : string) :
  let texts :=
    document_texts upper (reporting_period st) (client_reports st) in
  (save_path = "" -> save_pdf st save_path = Cancelled)
  /\ (save_path <> "" -> forallb parses texts = false ->
      save_pdf st save_path = MarkupError)
  /\ (save_path <> "" -> forallb parses texts = true ->
      exists story,
        save_pdf st save_path = Story story
        /\ List.length story = (11 * List.length (client_reports st))%nat
        /\ List.length (filter is_page_break story) =
           List.length (client_reports st)
        /\ texts_in title_style story =
           map (fun kv => upper (fst kv)) (client_reports st)
        /\ texts_in body_style story =
           map (fun kv => narrative (snd kv)) (client_reports st)).
Proof.
  intros texts. split; [|split].
  - intros ->. reflexivity.
  - intros Hp Hbad. apply story_of_none_iff in Hbad.
    unfold save_pdf, Render.save_pdf. fold story_of. rewrite Hbad.
    destruct save_path; [congruence|reflexivity].
  - intros Hp Hok.
    destruct (story_of (reporting_period st) (client_reports st))
      as [story|] eqn:E.
    + exists story. destruct (story_of_shape _ _ E) as (H1 & H2 & H3 & _ & H5).
      split; [|auto].
      unfold save_pdf, Render.save_pdf. fold story_of. rewrite E.
      destruct save_path; [congruence|reflexivity].
    + apply story_of_none_iff in E. unfold texts in Hok. congruence.
Qed.

End RenderMore.

Lemma save_pdf_story_witness :
  exists story,
    Render.save_pdf Sample.no_format Sample.no_format Sample.no_format
      (fun s => s) (fun _ => true) Sample.two_clients "out.pdf"
    = Render.Story story
    /\ List.length story = 22%nat.
Proof.
  destruct (proj2 (proj2 (@save_pdf_story Sample.no_format Sample.no_format
                            Sample.no_format (fun s => s) (fun _ => true)
                            Sample.two_clients "out.pdf")))
    as (story & Hs & Hl & _).
  - discriminate.
  - reflexivity.
  - exists story. split; [exact Hs|exact Hl].
Defined.

(** ** The program as a whole *)

Section MainMore.

Import Num Cal Pd App Spec Render Main Trace.

Variable kernel : Series -> Series.
Hypothesis kernel_sorts : sorts kernel.
Variable fmt_comma_0f fmt_1f fmt_2f : num -> string.
Variable upper : string -> string.
Variable parses : string -> bool.
Variable svc : Type.
Variable generate_content : string -> string -> svc -> option string * svc.

Let main :=
  main kernel fmt_comma_0f fmt_1f fmt_2f upper parses generate_content.
Let build_prompt := build_prompt fmt_comma_0f fmt_1f fmt_2f.
Let save_pdf := save_pdf fmt_comma_0f fmt_1f fmt_2f upper parses.
Let generate_report_text :=
  generate_report_text fmt_comma_0f fmt_1f fmt_2f generate_content.

Lemma dict_as_map (V : Type) (f : string -> V) (l : Dict.dict V) :
  NoDup (Dict.keys l) ->
  (forall k, In k (Dict.keys l) -> Dict.get k l = Some (f k)) ->
  l = map (fun k => (k, f k)) (Dict.keys l).
Proof.
  unfold Dict.keys. induction l as [|[k v] l IH]; simpl; intros Hnd Hget.
  - reflexivity.
  - inversion Hnd as [|? ? Hk Hl]; subst.
    pose proof (Hget k (or_introl eq_refl)) as Hv.
    rewrite String.eqb_refl in Hv. injection Hv as ->.
    f_equal. apply IH; [exact Hl|].
    intros k' Hk'. specialize (Hget k' (or_intror Hk')).
    destruct (String.eqb_spec k k') as [->|_]; [contradiction|exact Hget].
Qed.

Lemma analyze_fresh (st : State) (d : DataFrame) (D : Timestamp) :
  df st = Some d ->
  client_reports st = [] ->
  max_date d = Some D ->
  channels_known (periods D) d = true ->
  exists st',
    analyze kernel st = Some st'
    /\ client_reports st' =
       map (fun c => (c, report_for kernel d (periods D) c))
           (filter (has_current (periods D) d) (companies d))
    /\ reporting_period st' = strftime_B_Y (current_month_start (periods D))
    /\ api_key st' = api_key st /\ model st' = model st.
Proof.
  intros Hdf Hfresh Hmax Hch. unfold analyze. rewrite Hdf, Hmax.
  destruct (analyze_loop_spec kernel_sorts d (periods D) (companies d) Hch
              (client_reports st)) as (reports' & Hloop & Hget & Hnd).
  rewrite Hloop. eexists. split; [reflexivity|]. cbn.
  repeat split.
  pose proof (@analyze_loop_keys kernel kernel_sorts d (periods D) _
                (NoDup_unique _) _ _ Hloop) as Hk.
  rewrite Hfresh in Hk, Hget, Hnd. cbn [Dict.keys map app] in Hk.
  assert (Hk' : Dict.keys reports' =
                filter (has_current (periods D) d) (companies d)).
  { rewrite Hk. apply filter_ext. intros c. now rewrite andb_true_r. }
  rewrite <- Hk'. apply dict_as_map; [apply Hnd; constructor|].
  intros k Hin. rewrite Hget. rewrite Hk' in Hin.
  apply filter_In in Hin. destruct Hin as [Hin Hc].
  apply mem_iff in Hin. unfold has_current in Hc. now rewrite Hin, Hc.
Qed.

(** The run from a loaded frame on, when the analysis returns. *)
Lemma main_from_analysis (entered : option string)
    (listing : option (list ModelInfo)) (m : string) (a : ascii)
    (path' : string) (rows : DataFrame) (save_path : string) (w : svc)
    (st3 : State) :
  truthy entered = true ->
  find_working_model listing = Some m ->
  analyze kernel
    (load_data rows (fst (get_api_key entered listing init))) = Some st3 ->
  let r := main entered listing (String a path') (Some rows) save_path w in
  let st4 := fst (generate_report_text st3 w) in
  final r = Some st4
  /\ service r = snd (generate_report_text st3 w)
  /\ match save_pdf st4 save_path with
     | Cancelled => ending r = Completed /\ document r = None
     | Story story => ending r = Completed /\ document r = Some story
     | MarkupError => ending r = RenderRaised /\ document r = None
     end.
Proof.
  intros Hk Hf Han r st4. unfold r, st4, main, Main.main.
  unfold get_api_key in *. rewrite Hk, Hf in *. cbn [fst] in Han.
  rewrite Han. fold generate_report_text.
  destruct (generate_report_text st3 w) as [st4' w']. cbn [fst snd].
  fold save_pdf. destruct (save_pdf st4' save_path); cbn; auto.
Qed.

(** Case analysis on the hypotheses, for goals that are decided by the
    equations at hand. *)
Ltac settle :=
  repeat match goal with
         | |- _ /\ _ => split
         | |- _ <-> _ => split
         | |- _ -> _ => intro
         | H : _ \/ _ |- _ => destruct H
         | H : _ /\ _ |- _ => destruct H
         | H : exists _, _ |- _ => destruct H
         end; try discriminate; try congruence; eauto 6.

(** X20. A run gets as far as the analysis exactly when a non-empty key
    was entered, the prober found a model, a file was selected and it
    loaded; short of that nothing is analysed, the reasoning service is
    never called and no document is built, and a run without a usable
    model stops at the key dialog and never reaches the demo-mode
    narrative.  The analysis ends the run in a traceback exactly when the
    frame has no row or some client's rows of the current window all have
    a blank channel; the service has then not been called.  Past the
    analysis the run completes exactly when the save dialog is cancelled or
    every paragraph text of the final reports is accepted as mark-up, and
    ends in a traceback of [save_pdf] otherwise. *)
Theorem main_outcome (entered : option string)
    (listing : option (list ModelInfo)) (path : string)
    (loaded : option DataFrame) (save_path : string) (w : svc) :
  let r := main entered listing path loaded save_path w in
  let texts_ok st :=
    forallb parses
      (document_texts upper (reporting_period st) (client_reports st)) in
  (truthy entered = false \/ find_working_model listing = None <->
   ending r = NoModel)
  /\ (ending r = NoModel \/ ending r = NoFile \/ ending r = LoadExit ->
      service r = w /\ document r = None
      /\ exists st, final r = Some st /\ client_reports st = [])
  /\ (ending r = AnalyzeRaised <->
      truthy entered = true
      /\ (exists m, find_working_model listing = Some m)
      /\ path <> ""
      /\ exists rows,
           loaded = Some rows
           /\ (rows = []
               \/ exists D, max_date rows = Some D
                            /\ channels_known (periods D) rows = false))
  /\ (ending r = AnalyzeRaised ->
      service r = w /\ document r = None /\ final r = None)
  /\ (ending r = Completed \/ ending r = RenderRaised <->
      truthy entered = true
      /\ (exists m, find_working_model listing = Some m)
      /\ path <> ""
      /\ exists rows D,
           loaded = Some rows /\ max_date rows = Some D
           /\ channels_known (periods D) rows = true)
  /\ (ending r = Completed ->
      exists st, final r = Some st
                 /\ (save_path = "" /\ document r = None
                     \/ save_path <> "" /\ texts_ok st = true
                        /\ exists story, document r = Some story))
  /\ (ending r = RenderRaised ->
      exists st, final r = Some st /\ save_path <> ""
                 /\ texts_ok st = false /\ document r = None).
Proof.
  intros r texts_ok.
  destruct (truthy entered) eqn:Ek;
    [destruct (find_working_model listing) as [m|] eqn:Ef|].
  2:{ unfold r, main, Main.main, get_api_key. rewrite Ek, Ef. cbn. settle. }
  2:{ unfold r, main, Main.main, get_api_key. rewrite Ek. cbn. settle. }
  destruct path as [|a path'].
  { unfold r, main, Main.main, get_api_key. rewrite Ek, Ef. cbn. settle. }
  destruct loaded as [rows|].
  2:{ unfold r, main, Main.main, get_api_key. rewrite Ek, Ef. cbn. settle. }
  assert (Hraise : analyze kernel
                     (load_data rows (fst (get_api_key entered listing init)))
                   = None ->
                   ending r = AnalyzeRaised /\ service r = w
                   /\ document r = None /\ final r = None).
  { intros Han. unfold r, main, Main.main. unfold get_api_key in *.
    rewrite Ek, Ef in *. cbn [fst] in Han. rewrite Han. cbn. auto. }
  destruct (max_date rows) as [D|] eqn:Hmax.
  2:{ assert (Hrows : rows = []) by (destruct rows; [reflexivity|discriminate]).
      destruct Hraise as (He & Hs & Hd & Hf).
      { unfold analyze. unfold get_api_key. rewrite Ek, Ef. cbn. now rewrite Hmax. }
      rewrite He, Hs, Hd, Hf. settle. }
  destruct (channels_known (periods D) rows) eqn:Hch.
  2:{ destruct Hraise as (He & Hs & Hd & Hf).
      { apply (analyze_raises kernel_sorts) with (d := rows) (D := D); auto. }
      rewrite He, Hs, Hd, Hf. settle. }
  assert (Hdf : df (load_data rows (fst (get_api_key entered listing init)))
                = Some rows) by reflexivity.
  destruct (analyze_spec kernel_sorts _ Hdf Hmax Hch) as (st3 & Han & _).
  destruct (@main_from_analysis entered listing m a path' rows save_path w st3
              Ek Ef Han) as (Hfin & _ & Hsave).
  fold r in Hfin, Hsave.
  set (st4 := fst (generate_report_text st3 w)) in *.
  unfold save_pdf, Render.save_pdf in Hsave.
  pose proof (@story_of_none_iff fmt_comma_0f fmt_1f fmt_2f upper parses
                (reporting_period st4) (client_reports st4)) as Hnone.
  change (forallb parses
            (document_texts upper (reporting_period st4) (client_reports st4)))
    with (texts_ok st4) in Hnone.
  assert (Hnot : rows <> []) by (intros ->; discriminate).
  destruct save_path as [|b save_path'].
  - destruct Hsave as [He Hd]. rewrite He, Hd, Hfin. settle.
  - destruct (Render.story_of fmt_comma_0f fmt_1f fmt_2f upper parses
                (reporting_period st4) (client_reports st4)) as [story|] eqn:Es.
    + assert (Ht : texts_ok st4 = true).
      { apply not_false_iff_true. intros Hf. apply Hnone in Hf.
        discriminate. }
      destruct Hsave as [He Hd]. rewrite He, Hd, Hfin. settle.
      exists st4. split; [reflexivity|]. right.
      split; [discriminate|]. split; [exact Ht|eauto].
    + pose proof (proj1 Hnone eq_refl) as Ht.
      destruct Hsave as [He Hd]. rewrite He, Hd, Hfin. settle.
      exists st4. repeat split; auto. discriminate.
Qed.

(** X21. A run whose analysis returns, end to end: the reports are those
    of the companies with rows in the current window, in order of first
    appearance, each with the figures computed by the analysis; the
    narrative of each report is the cleaned answer of the service to the
    call made for that report, or "AI Unavailable." when that call raised;
    the service has been called once per report with the prompt built from
    that report; and the run ends as [save_pdf] does on these reports:
    completed without document when the dialog is cancelled, completed
    with the story built from the final reports when every paragraph text
    is accepted, in a traceback otherwise. *)
Theorem main_after_analysis (entered : option string)
    (listing : option (list ModelInfo)) (m path : string)
    (rows : DataFrame) (D : Timestamp) (save_path : string) (w : svc) :
  truthy entered = true ->
  find_working_model listing = Some m ->
  path <> "" ->
  max_date rows = Some D ->
  channels_known (periods D) rows = true ->
  let r := main entered listing path (Some rows) save_path w in
  let period := strftime_B_Y (current_month_start (periods D)) in
  let items :=
    map (fun c => (c, report_for kernel rows (periods D) c))
        (filter (has_current (periods D) rows) (companies rows)) in
  exists st,
    final r = Some st
    /\ reporting_period st = period
    /\ Dict.keys (client_reports st) =
       filter (has_current (periods D) rows) (companies rows)
    /\ Forall2 (fun a b => fst a = fst b /\ same_figures (snd a) (snd b))
               items (client_reports st)
    /\ map (fun kv => narrative (snd kv)) (client_reports st) =
       map narrative_of (answers generate_content (build_prompt period) m items w)
    /\ service r = service_after generate_content (build_prompt period) m items w
    /\ match save_pdf st save_path with
       | Cancelled => ending r = Completed /\ document r = None
       | Story story => ending r = Completed /\ document r = Some story
       | MarkupError => ending r = RenderRaised /\ document r = None
       end.
Proof.
  intros Hk Hf Hpath Hmax Hch r period items.
  destruct path as [|a path']; [congruence|].
  assert (Hdf : df (load_data rows (fst (get_api_key entered listing init)))
                = Some rows) by reflexivity.
  assert (Hfresh : client_reports
                     (load_data rows (fst (get_api_key entered listing init)))
                   = []).
  { unfold get_api_key. rewrite Hk, Hf. reflexivity. }
  destruct (analyze_fresh _ Hdf Hfresh Hmax Hch)
    as (st3 & Han & Hrep & Hper & Hkey & Hmod).
  destruct (@main_from_analysis entered listing m a path' rows save_path w st3
              Hk Hf Han) as (Hfin & Hsvc & Hsave).
  fold r in Hfin, Hsvc, Hsave.
  assert (Hk3 : truthy (api_key st3) = true).
  { rewrite Hkey. unfold get_api_key. rewrite Hk, Hf. exact Hk. }
  assert (Hm3 : model st3 = Some m).
  { rewrite Hmod. unfold get_api_key. now rewrite Hk, Hf. }
  destruct (@narrate_items_with_model fmt_comma_0f fmt_1f fmt_2f svc
              generate_content st3 m (client_reports st3) Hk3 Hm3 w)
    as (H1 & H2).
  pose proof (@narrate_items_frame fmt_comma_0f fmt_1f fmt_2f svc
                generate_content st3 (client_reports st3) w) as HF.
  pose proof (@narrate_items_keys fmt_comma_0f fmt_1f fmt_2f svc
                generate_content st3 (client_reports st3) w) as H3.
  unfold generate_report_text in Hfin, Hsvc, Hsave.
  rewrite generate_report_text_eq in Hfin, Hsvc, Hsave.
  cbn [fst snd] in Hfin, Hsvc, Hsave.
  eexists. split; [exact Hfin|].
  cbn [reporting_period client_reports].
  fold items in Hrep. rewrite Hrep, Hper in *. fold period in H1, H2.
  split; [reflexivity|].
  split; [|split; [exact HF|split; [exact H2|split; [|exact Hsave]]]].
  - rewrite H3. unfold items, Dict.keys. rewrite map_map. apply map_id.
  - now rewrite Hsvc.
Qed.

End MainMore.

Lemma main_outcome_witness :
  Main.ending (Main.main Sample.sort_kernel Sample.no_format Sample.no_format
                 Sample.no_format (fun s => s) (fun _ => true) Sample.flaky
                 (Some "key") None "data.csv" (Some Sample.acme) "out.pdf"
                 0%nat)
  = Main.NoModel.
Proof.
  apply (proj1 (@main_outcome Sample.sort_kernel sort_kernel_sorts
                  Sample.no_format Sample.no_format Sample.no_format
                  (fun s => s) (fun _ => true) nat Sample.flaky
                  (Some "key") None "data.csv"
                  (Some Sample.acme) "out.pdf" 0%nat)).
  right. reflexivity.
Defined.

Lemma main_after_analysis_witness :
  let r := Main.main Sample.sort_kernel Sample.no_format Sample.no_format
             Sample.no_format (fun s => s) (fun _ => true) Sample.flaky
             (Some "key")
             (Some [ {| App.name := "models/gemini-pro";
                        App.supported_generation_methods := ["generateContent"] |} ])
             "data.csv" (Some Sample.acme) "out.pdf" 0%nat in
  exists st,
    Main.final r = Some st
    /\ Dict.keys (App.client_reports st) = ["Acme"]
    /\ map (fun kv => App.narrative (snd kv)) (App.client_reports st)
       = ["AI Unavailable."]
    /\ Main.service r = 1%nat.
Proof.
  destruct (@main_after_analysis Sample.sort_kernel sort_kernel_sorts
              Sample.no_format Sample.no_format Sample.no_format
              (fun s => s) (fun _ => true) nat Sample.flaky (Some "key")
              (Some [ {| App.name := "models/gemini-pro";
                         App.supported_generation_methods := ["generateContent"] |} ])
              "models/gemini-pro" "data.csv" Sample.acme
              (Sample.midnight 2024 3 1) "out.pdf" 0%nat
              eq_refl eq_refl ltac:(discriminate) eq_refl eq_refl)
    as (st & Hfin & _ & Hkeys & _ & Hnarr & Hsvc & _).
  intros r. exists st. split; [exact Hfin|]. split; [exact Hkeys|].
  split; [exact Hnarr|exact Hsvc].
Defined.
